(** * VIIRS daily snow-cover mosaic: the per-date pipeline of
    [normal_gen/viirs_mosaic.py]

    A shallow embedding of [build_viirs_tif], [reproject_viirs],
    [create_viirs_mosaic], [distribute] and [process_viirs], with the
    Python text operations they use, a path-keyed file store, and the HDF5
    and raster libraries taken as an interface. *)

From Stdlib Require Import ZArith NArith Ascii String Lia.
From stdpp Require Import base option list gmap.

Local Open Scope N_scope.

(** ** Python values: text, bytes, exceptions *)

Module Py.

(** A Python [str] is a sequence of Unicode code points, a [bytes] object a
    sequence of octets. *)
Abbreviation str := (list N).
Abbreviation bytes := (list N).

(** A literal of the source text, as a [str] (all of them are ASCII). *)
Definition lit (s : string) : str :=
  map N_of_ascii (list_ascii_of_string s).

(** The exceptions the pipeline can meet.  Which of them a failing step
    raises is followed only roughly ([LibraryError] stands for those of the
    raster library); what matters below is whether a step raises. *)
Inductive exn :=
  | KeyError | IndexError | ValueError | TypeError | AttributeError
  | UnicodeDecodeError | OSError | FileExistsError | FileNotFoundError
  | LibraryError.

(** A computation that raises or returns. *)
Inductive res (A : Type) :=
  | Ok (a : A)
  | Raise (e : exn).
Arguments Ok {A} a.
Arguments Raise {A} e.

Definition rbind {A B} (m : res A) (k : A -> res B) : res B :=
  match m with
  | Ok a => k a
  | Raise e => Raise e
  end.

Definition lparen : N := 40.
Definition rparen : N := 41.
Definition comma : N := 44.
Definition equals : N := 61.

(** A text without parenthesis and without comma. *)
Definition plain (s : str) : Prop :=
  (lparen ∉ s) /\ (rparen ∉ s) /\ (comma ∉ s).

(** [l[0]] *)
Definition first {A} (l : list A) : res A :=
  match l with
  | x :: _ => Ok x
  | [] => Raise IndexError
  end.

(** [l[-1]] *)
Fixpoint last_item {A} (l : list A) : res A :=
  match l with
  | [] => Raise IndexError
  | [x] => Ok x
  | _ :: l' => last_item l'
  end.

(** [l[1]] *)
Definition second {A} (l : list A) : res A :=
  match l with
  | _ :: x :: _ => Ok x
  | _ => Raise IndexError
  end.

(** [l[:-1]] *)
Fixpoint but_last {A} (l : list A) : list A :=
  match l with
  | [] => []
  | [x] => []
  | x :: l' => x :: but_last l'
  end.

(** [s.startswith(p)], and the rest of [s] after [p] when it does. *)
Fixpoint strip_prefix (p s : str) : option str :=
  match p, s with
  | [], _ => Some s
  | _ :: _, [] => None
  | a :: p', b :: s' => if a =? b then strip_prefix p' s' else None
  end.

Definition startswith (s p : str) : bool :=
  match strip_prefix p s with Some _ => true | None => false end.

(** [s.endswith(p)] *)
Definition endswith (s p : str) : bool := startswith (rev s) (rev p).

(** [needle in hay] on text. *)
Fixpoint contains (needle hay : str) : bool :=
  startswith hay needle
  || match hay with
     | [] => false
     | _ :: hay' => contains needle hay'
     end.

(** [s.split(sep)] for a separator that is given: the pieces between the
    occurrences of [sep], found from the left and not overlapping.  [n]
    bounds the number of steps, one for each character of [s] at most. *)
Fixpoint split_go (sep : str) (n : nat) (cur s : str) : list str :=
  match s with
  | [] => [cur]
  | c :: s' =>
    match n with
    | O => [cur ++ s]
    | S n' =>
      match strip_prefix sep s with
      | Some rest => cur :: split_go sep n' [] rest
      | None => split_go sep n' (cur ++ [c]) s'
      end
    end
  end.

Definition split (s sep : str) : res (list str) :=
  match sep with
  | [] => Raise ValueError
  | _ :: _ => Ok (split_go sep (length s) [] s)
  end.

(** [sep.join(l)] *)
Fixpoint join (sep : str) (l : list str) : str :=
  match l with
  | [] => []
  | [x] => x
  | x :: l' => x ++ sep ++ join sep l'
  end.

(** [s.replace(old, new)] for a non-empty [old]: the pieces around the
    occurrences of [old], joined by [new].  An empty [old] does not occur in
    the program. *)
Definition replace (s old new : str) : str :=
  match split s old with
  | Ok pieces => join new pieces
  | Raise _ => s
  end.

(** ASCII whitespace, as [bytes.split()] knows it: space, tab, newline,
    carriage return, vertical tab and form feed. *)
Definition is_space (b : N) : bool :=
  (b =? 32) || (b =? 9) || (b =? 10) || (b =? 13) || (b =? 11) || (b =? 12).

(** [b.split()] on bytes: the maximal runs without whitespace. *)
Fixpoint ws_split_go (cur : bytes) (s : bytes) : list bytes :=
  match s with
  | [] => match cur with [] => [] | _ => [cur] end
  | c :: s' =>
    if is_space c then
      match cur with
      | [] => ws_split_go [] s'
      | _ => cur :: ws_split_go [] s'
      end
    else ws_split_go (cur ++ [c]) s'
  end.

Definition ws_split (b : bytes) : list bytes := ws_split_go [] b.

(** [b.decode('utf-8')], strict: shortest forms only, no surrogates,
    nothing above U+10FFFF. *)
Definition is_cont (b : N) : bool := (128 <=? b) && (b <=? 191).

Definition in_range (lo hi b : N) : bool := (lo <=? b) && (b <=? hi).

Fixpoint utf8_decode (b : bytes) : res str :=
  match b with
  | [] => Ok []
  | b0 :: r0 =>
    if b0 <? 128 then rbind (utf8_decode r0) (fun t => Ok (b0 :: t))
    else if in_range 194 223 b0 then
      match r0 with
      | b1 :: r1 =>
        if is_cont b1
        then rbind (utf8_decode r1)
               (fun t => Ok (((b0 - 192) * 64 + (b1 - 128)) :: t))
        else Raise UnicodeDecodeError
      | _ => Raise UnicodeDecodeError
      end
    else if in_range 224 239 b0 then
      match r0 with
      | b1 :: b2 :: r2 =>
        if (if b0 =? 224 then in_range 160 191 b1
            else if b0 =? 237 then in_range 128 159 b1
            else is_cont b1) && is_cont b2
        then rbind (utf8_decode r2)
               (fun t => Ok (((b0 - 224) * 4096 + (b1 - 128) * 64
                              + (b2 - 128)) :: t))
        else Raise UnicodeDecodeError
      | _ => Raise UnicodeDecodeError
      end
    else if in_range 240 244 b0 then
      match r0 with
      | b1 :: b2 :: b3 :: r3 =>
        if (if b0 =? 240 then in_range 144 191 b1
            else if b0 =? 244 then in_range 128 143 b1
            else is_cont b1) && is_cont b2 && is_cont b3
        then rbind (utf8_decode r3)
               (fun t => Ok (((b0 - 240) * 262144 + (b1 - 128) * 4096
                              + (b2 - 128) * 64 + (b3 - 128)) :: t))
        else Raise UnicodeDecodeError
      | _ => Raise UnicodeDecodeError
      end
    else Raise UnicodeDecodeError
  end.

(** [[f(x) for x in l]] for an [f] that may raise. *)
Fixpoint map_res {A B} (f : A -> res B) (l : list A) : res (list B) :=
  match l with
  | [] => Ok []
  | x :: l' => rbind (f x) (fun y => rbind (map_res f l') (fun ys => Ok (y :: ys)))
  end.

End Py.

Import Py.

(** ** [os.path] on POSIX *)

Module OsPath.

Definition slash : N := 47.

(** One step of [os.path.join]: a component that starts with a slash
    replaces what came before it. *)
Definition join2 (path b : str) : str :=
  if startswith b [slash] then b
  else if match path with [] => true | _ => endswith path [slash] end
       then path ++ b
       else path ++ [slash] ++ b.

(** [os.path.join(a, *p)] *)
Definition join (a : str) (p : list str) : str := fold_left join2 p a.

(** [p] cut after its last slash: [(p[:i], p[i:])] with
    [i = p.rfind('/') + 1], or [None] when [p] has no slash. *)
Fixpoint rbreak (p : str) : option (str * str) :=
  match p with
  | [] => None
  | c :: p' =>
    match rbreak p' with
    | Some (h, t) => Some (c :: h, t)
    | None => if c =? slash then Some ([c], p') else None
    end
  end.

Definition all_slash (p : str) : bool := forallb (N.eqb slash) p.

(** [s.rstrip('/')] *)
Fixpoint lstrip_slash (l : str) : str :=
  match l with
  | c :: l' => if c =? slash then lstrip_slash l' else l
  | [] => []
  end.

Definition rstrip_slash (s : str) : str := rev (lstrip_slash (rev s)).

(** [os.path.split(p)] *)
Definition split (p : str) : str * str :=
  match rbreak p with
  | None => ([], p)
  | Some (head, tail) =>
    (if all_slash head then head else rstrip_slash head, tail)
  end.

(** [os.path.split(p)[-1]] *)
Definition basename (p : str) : str := snd (split p).

End OsPath.

(** The granule base name of the source:
    [".".join(os.path.split(p)[-1].split('.')[:-1])]. *)
Definition stem (p : str) : str :=
  match Py.split (OsPath.basename p) (lit ".") with
  | Ok pieces => Py.join (lit ".") (but_last pieces)
  | Raise _ => []
  end.

(** ** Arrays, rasters, granules *)

(** A numeric array: its shape and its items in row-major order. *)
Record ndarray := { shape : list nat; data : list Z }.

Definition zeros (sh : list nat) : ndarray :=
  {| shape := sh; data := repeat 0%Z (foldr Nat.mul 1%nat sh) |}.

(** The geotransform a raster carries: the 6-tuple
    [(ulcLon, xRes, 0, ulcLat, 0, yRes)] that [SetGeoTransform] was given,
    or an affine transform the raster library computed. *)
Inductive transform (F A : Type) :=
  | GeoInfo (t : F * Z * Z * F * Z * Z)
  | Affine (a : A).
Arguments GeoInfo {F A} t.
Arguments Affine {F A} a.

(** A raster file: what [src.meta] shows of it, and its bands
    ([count] is their number). *)
Record raster (F A : Type) := {
  r_driver : str;
  r_width : nat;
  r_height : nat;
  r_bands : list ndarray;
  r_nodata : option F;
  r_crs : option str;
  r_transform : option (transform F A)
}.
Arguments r_driver {F A} r.
Arguments r_width {F A} r.
Arguments r_height {F A} r.
Arguments r_bands {F A} r.
Arguments r_nodata {F A} r.
Arguments r_crs {F A} r.
Arguments r_transform {F A} r.

(** An attribute of a dataset: a numpy scalar or a one-dimensional numpy
    array of integers. *)
Inductive attr :=
  | AScalar (v : Z)
  | AArray (vs : list Z).

(** The value of a dataset: a scalar byte string (as [StructMetadata.0]
    is) or a numeric array. *)
Inductive h5value :=
  | VBytes (b : bytes)
  | VArray (a : ndarray).

Record dataset := { ds_value : h5value; ds_attrs : list (str * attr) }.

Inductive h5obj :=
  | Group
  | Dataset (d : dataset).

(** An HDF5 file: its objects under their full names, in the order in which
    [visit] meets them. *)
Abbreviation h5file := (list (str * h5obj)).

(** What a path of the store holds. *)
Inductive node (F A : Type) :=
  | Dir
  | H5File (g : h5file)
  | TifFile (r : raster F A)
  | OtherFile.
Arguments Dir {F A}.
Arguments H5File {F A} g.
Arguments TifFile {F A} r.
Arguments OtherFile {F A}.

Inductive Resampling := nearest | bilinear | cubic.

(** ** The external collaborators

    IEEE doubles and the raster library are not part of the program: their
    operations are an interface.  [float_lit s] is the double a float
    literal [s] of the source denotes. *)
Class Lib := {
  float : Type;
  affine : Type;
  float_of_str : str -> res float;
  float_of_int : Z -> float;
  float_lit : string -> float;
  (** [src.bounds]: left, bottom, right, top *)
  bounds_of : option (transform float affine) -> nat -> nat ->
              float * float * float * float;
  calculate_default_transform :
    option str -> str -> nat -> nat -> float -> float -> float -> float ->
    float -> res (affine * nat * nat);
  (** one band resampled onto a destination grid of the given width and
      height *)
  reproject :
    ndarray -> option (transform float affine) -> option str ->
    affine -> str -> Resampling -> nat -> nat -> res ndarray;
  merge :
    list (raster float affine) -> float * float * float * float -> float ->
    res (ndarray * affine)
}.

(** [l[i]] *)
Definition item {A} (l : list A) (i : nat) : res A :=
  match l !! i with
  | Some x => Ok x
  | None => Raise IndexError
  end.

(** Lookup in a table by name. *)
Fixpoint assoc {V} (k : str) (l : list (str * V)) : option V :=
  match l with
  | [] => None
  | (k', v) :: l' => if bool_decide (k' = k) then Some v else assoc k l'
  end.

Declare Scope res_scope.
Delimit Scope res_scope with R.
Notation "'do' x <- m ; k" := (rbind m (fun x => k))
  (at level 10, x name, m at level 100, k at level 200) : res_scope.
Notation "'do' ' pat <- m ; k" :=
  (rbind m (fun x => match x with pat => k end))
  (at level 10, pat pattern, m at level 100, k at level 200) : res_scope.

(** *** Reading a granule *)

Section Granule.
Local Open Scope res_scope.

(** [f[p]] *)
Definition h5_get (f : h5file) (p : str) : res h5obj :=
  match assoc p f with
  | Some o => Ok o
  | None => Raise KeyError
  end.

(** [f[a][b]] for a group [a] with a member [b]. *)
Definition h5_get2 (f : h5file) (a b : str) : res h5obj :=
  do o <- h5_get f a;
  match o with
  | Group => h5_get f (a ++ [OsPath.slash] ++ b)
  | Dataset _ => Raise TypeError
  end.

(** [list(g)] for the group at [gp]: the names of its members. *)
Definition members (f : h5file) (gp : str) : list str :=
  omap (fun '(p, _) =>
          match strip_prefix (gp ++ [OsPath.slash]) p with
          | Some name =>
            match name with
            | [] => None
            | _ => if contains [OsPath.slash] name then None else Some name
            end
          | None => None
          end) f.

Definition is_dataset (f : h5file) (obj : str) : bool :=
  match h5_get f obj with
  | Ok (Dataset _) => true
  | _ => false
  end.

(** Lines 57-58: the structural metadata, split at whitespace, each token
    decoded. *)
Definition tokens_of (blob : bytes) : res (list str) :=
  map_res utf8_decode (ws_split blob).

Definition fileMetadata_of (f : h5file) : res (list str) :=
  do o <- h5_get2 f (lit "HDFEOS INFORMATION") (lit "StructMetadata.0");
  match o with
  | Dataset d =>
    match ds_value d with
    | VBytes b => tokens_of b
    | VArray _ => Raise AttributeError
    end
  | Group => Raise TypeError
  end.

(** Line 60 *)
Definition grids_of (f : h5file) : res (list str) :=
  do o <- h5_get2 f (lit "HDFEOS") (lit "GRIDS");
  match o with
  | Group => Ok (members f (lit "HDFEOS/GRIDS"))
  | Dataset _ => Raise TypeError
  end.

(** Lines 62-65 *)
Definition all_datasets_of (f : h5file) (grids : list str) : list str :=
  let h5_objs := map fst f in
  flat_map (fun grid =>
    List.filter (fun obj => is_dataset f obj && contains grid obj) h5_objs)
    grids.

(** Line 67 *)
Definition snow_of (f : h5file) (all_datasets : list str) : res dataset :=
  do a <- first (List.filter (contains (lit "CGF_NDSI_Snow_Cover"))
                  all_datasets);
  do o <- h5_get f a;
  match o with
  | Dataset d => Ok d
  | Group => Raise TypeError
  end.

(** [snow.attrs['_FillValue'][0]] *)
Definition read_fill (snow : dataset) : res Z :=
  match assoc (lit "_FillValue") (ds_attrs snow) with
  | None => Raise KeyError
  | Some (AScalar _) => Raise IndexError
  | Some (AArray vs) => first vs
  end.

(** Lines 68-71: any failure of the read gives the documented 255. *)
Definition fillValue_of (snow : dataset) : Z :=
  match read_fill snow with
  | Ok v => v
  | Raise _ => 255%Z
  end.

(** Line 72: [np.array(list(snow))] *)
Definition np_array_list (snow : dataset) : res ndarray :=
  match ds_value snow with
  | VBytes _ => Raise TypeError
  | VArray a =>
    match shape a with
    | [] => Raise TypeError
    | O :: _ => Ok {| shape := [O]; data := [] |}
    | _ => Ok a
    end
  end.

(** A granule without a dataset for line 67 to select, and one whose
    metadata has no token with the marker of line 73. *)
Definition lacks_snow (f : h5file) : Prop :=
  forall grids, grids_of f = Ok grids ->
    List.filter (contains (lit "CGF_NDSI_Snow_Cover")) (all_datasets_of f grids)
    = [].

Definition lacks_marker (f : h5file) : Prop :=
  forall toks, fileMetadata_of f = Ok toks ->
    List.filter (contains (lit "UpperLeftPointMtrs")) toks = [].

(** A granule whose metadata has no token with the marker of line 77. *)
Definition lacks_lower_right (f : h5file) : Prop :=
  forall toks, fileMetadata_of f = Ok toks ->
    List.filter (contains (lit "LowerRightMtrs")) toks = [].

End Granule.

(** ** The pipeline *)

Section Pipeline.
Context {L : Lib}.

Local Abbreviation rast := (raster float affine).
Local Abbreviation store := (gmap str (node float affine)).

(** The projection of the granules, line 44.  Its double quotes are written
    as single quotes here and put back by [requote]. *)
Definition requote (s : str) : str :=
  map (fun c => if c =? 39 then 34 else c) s.

Definition prj : str :=
  requote
    (lit "PROJCS['unnamed',        GEOGCS['Unknown datum based upon th" ++
     lit "e custom spheroid',         DATUM['Not specified (based on c" ++
     lit "ustom spheroid)',         SPHEROID['Custom spheroid',6371007" ++
     lit ".181,0]],         PRIMEM['Greenwich',0],        UNIT['degree" ++
     lit "',0.0174532925199433]],        PROJECTION['Sinusoidal'],    " ++
     lit "     PARAMETER['longitude_of_center',0],         PARAMETER['" ++
     lit "false_easting',0],         PARAMETER['false_northing',0],   " ++
     lit "      UNIT['Meter',1]]").

(** The output resolution, in degrees for each pixel, and the bounding box
    of the mosaic: west, south, east, north. *)
Definition RES : float := float_lit "0.006659501656959246".

Definition BOUNDS : float * float * float * float :=
  (float_lit "-140.977", float_lit "46.559",
   float_lit "-112.3242", float_lit "63.134").

(** Lines 73-75: the upper left corner of the grid.  Line 75 splits the same
    token again for the second component. *)
Definition upper_left (fileMetadata : list str) : res (float * float) :=
  (do ulc <- first (List.filter (contains (lit "UpperLeftPointMtrs"))
                      fileMetadata);
   do p <- split ulc (lit "=(");
   do l <- last_item p;
   do q <- split (replace l (lit ")") (lit "")) (lit ",");
   do x <- first q;
   do ulcLon <- float_of_str x;
   do y <- second q;
   do ulcLat <- float_of_str y;
   Ok (ulcLon, ulcLat))%R.

(** The extraction on a metadata blob: lines 57-58, then 73-75. *)
Definition metadata_upper_left (blob : bytes) : res (float * float) :=
  (do fileMetadata <- tokens_of blob; upper_left fileMetadata)%R.

(** Line 77 *)
Definition lower_right (fileMetadata : list str) : res str :=
  first (List.filter (contains (lit "LowerRightMtrs")) fileMetadata).

(** *** The store and the stateful computations

    The store is keyed by the text of a path, as the program builds it with
    [os.path.join]; a relative path is relative to the working directory,
    which always exists.  A computation may change the store and then raise:
    what it wrote stays. *)
Definition M (A : Type) : Type := store -> res A * store.

Definition ret {A} (a : A) : M A := fun s => (Ok a, s).

Definition lift {A} (r : res A) : M A := fun s => (r, s).

Definition bind {A B} (m : M A) (k : A -> M B) : M B :=
  fun s =>
    match m s with
    | (Ok a, s') => k a s'
    | (Raise e, s') => (Raise e, s')
    end.

(** [try: m  except: pass] *)
Definition try_pass (m : M unit) : M unit :=
  fun s => (Ok tt, snd (m s)).

Declare Scope pipe_scope.
Delimit Scope pipe_scope with M.
Notation "'do' x <- m ; k" := (bind m (fun x => k))
  (at level 10, x name, m at level 100, k at level 200) : pipe_scope.
Notation "'do' ' pat <- m ; k" :=
  (bind m (fun x => match x with pat => k end))
  (at level 10, pat pattern, m at level 100, k at level 200) : pipe_scope.
Notation "m ;; k" := (bind m (fun _ => k))
  (at level 100, k at level 200, right associativity) : pipe_scope.
Local Open Scope pipe_scope.

Definition nonempty {A} (l : list A) : bool :=
  match l with [] => false | _ => true end.

Definition is_dir (s : store) (p : str) : bool :=
  (nonempty p && OsPath.all_slash p)
  || match s !! p with Some Dir => true | _ => false end.

(** [os.path.exists(p)] *)
Definition exists_ (s : store) (p : str) : bool :=
  (nonempty p && OsPath.all_slash p)
  || match s !! p with Some _ => true | None => false end.

(** The directory that is to hold [p] is there. *)
Definition parent_ok (s : store) (p : str) : bool :=
  match fst (OsPath.split p) with
  | [] => true
  | head => is_dir s head
  end.

(** [os.mkdir(p)]; a trailing slash does not count. *)
Definition mkdir (p : str) : M unit :=
  fun s =>
    let p := if OsPath.all_slash p then p else OsPath.rstrip_slash p in
    if exists_ s p then (Raise FileExistsError, s)
    else if nonempty p && parent_ok s p then (Ok tt, <[p := Dir]> s)
    else (Raise FileNotFoundError, s).

(** [os.makedirs(name)]: the missing ancestors first, then [name].  [n]
    bounds the depth by the length of the path. *)
Fixpoint makedirs_go (n : nat) (name : str) : M unit :=
  fun s =>
    match n with
    | O => (Raise OSError, s)
    | S n' =>
      let '(head, tail) := OsPath.split name in
      let '(head, tail) :=
        match tail with [] => OsPath.split head | _ => (head, tail) end in
      if nonempty head && nonempty tail && negb (exists_ s head) then
        match makedirs_go n' head s with
        | (Ok _, s1) | (Raise FileExistsError, s1) =>
          if bool_decide (tail = lit ".") then (Ok tt, s1) else mkdir name s1
        | (Raise e, s1) => (Raise e, s1)
        end
      else mkdir name s
    end.

Definition makedirs (name : str) : M unit :=
  makedirs_go (S (length name)) name.

(** [s'] is [s] with directories added, each at a path that starts
    [name]. *)
Definition grows (name : str) (s s' : store) : Prop :=
  forall q, s' !! q = s !! q
            \/ (s !! q = None /\ s' !! q = Some Dir
                /\ q `prefix_of` name /\ q <> []).

(** A computation that leaves [q] as it is. *)
Definition keeps {A} (q : str) (m : M A) : Prop :=
  forall s, snd (m s) !! q = s !! q.

(** A computation that changes the store at [p] at most. *)
Definition only_at {A} (p : str) (m : M A) : Prop :=
  forall s q, q <> p -> snd (m s) !! q = s !! q.

(** *** [glob]

    [fnmatch] with [*] and [?]; the patterns of the program have no
    bracket.  A directory is listed in the order of the store (the order of
    [os.scandir] is not specified). *)
Definition star : N := 42.
Definition qmark : N := 63.
Definition lbracket : N := 91.
Definition dot : N := 46.

Fixpoint fnmatch (pat name : str) : bool :=
  match pat with
  | [] => negb (nonempty name)
  | c :: pat' =>
    if c =? star then
      (fix any (name : str) : bool :=
         fnmatch pat' name
         || match name with
            | [] => false
            | _ :: name' => any name'
            end) name
    else
      match name with
      | [] => false
      | d :: name' => ((c =? qmark) || (c =? d)) && fnmatch pat' name'
      end
  end.

Definition has_magic (s : str) : bool :=
  existsb (fun c => (c =? star) || (c =? qmark) || (c =? lbracket)) s.

Definition ishidden (name : str) : bool := startswith name [dot].

(** The names in directory [d] ([[]] is the working directory); nothing
    when [d] cannot be listed. *)
Definition listdir (s : store) (d : str) : list str :=
  if negb (nonempty d) || is_dir s d then
    omap (fun k =>
            match strip_prefix (OsPath.join2 d []) k with
            | Some name =>
              if nonempty name && negb (contains [OsPath.slash] name)
              then Some name else None
            | None => None
            end) (map fst (map_to_list s))
  else [].

Definition glob1 (s : store) (d pat : str) : list str :=
  let names := listdir s d in
  let names := if ishidden pat then names
               else List.filter (fun x => negb (ishidden x)) names in
  List.filter (fnmatch pat) names.

Definition glob0 (s : store) (d base : str) : list str :=
  match base with
  | [] => if is_dir s d then [base] else []
  | _ => if exists_ s (OsPath.join d [base]) then [base] else []
  end.

(** The directories a directory part with wildcards stands for: that
    recursion of [glob] is left to the library. *)
Variable glob_dirs : store -> str -> list str.

(** What [glob(pattern)] returns in store [s]. *)
Definition glob_list (s : store) (pattern : str) : list str :=
  let '(dirname, basename) := OsPath.split pattern in
  if negb (has_magic pattern) then
    match basename with
    | [] => if is_dir s dirname then [pattern] else []
    | _ => if exists_ s pattern then [pattern] else []
    end
  else
    match dirname with
    | [] => glob1 s [] basename
    | _ =>
      let dirs :=
        if negb (bool_decide (dirname = pattern)) && has_magic dirname
        then glob_dirs s dirname else [dirname] in
      let glob_in_dir := if has_magic basename then glob1 else glob0 in
      flat_map (fun d =>
                  map (fun name => OsPath.join d [name])
                    (glob_in_dir s d basename)) dirs
    end.

(** [glob(pattern)] *)
Definition glob (pattern : str) : M (list str) :=
  fun s => (Ok (glob_list s pattern), s).

(** *** Raster files *)

Definition with_band (i : nat) (b : ndarray) (r : rast) : rast :=
  {| r_driver := r_driver r; r_width := r_width r; r_height := r_height r;
     r_bands := <[i := b]> (r_bands r); r_nodata := r_nodata r;
     r_crs := r_crs r; r_transform := r_transform r |}.

Definition with_bands (bs : list ndarray) (r : rast) : rast :=
  {| r_driver := r_driver r; r_width := r_width r; r_height := r_height r;
     r_bands := bs; r_nodata := r_nodata r;
     r_crs := r_crs r; r_transform := r_transform r |}.

Definition with_nodata (v : float) (r : rast) : rast :=
  {| r_driver := r_driver r; r_width := r_width r; r_height := r_height r;
     r_bands := r_bands r; r_nodata := Some v;
     r_crs := r_crs r; r_transform := r_transform r |}.

Definition with_transform (t : transform float affine) (r : rast) : rast :=
  {| r_driver := r_driver r; r_width := r_width r; r_height := r_height r;
     r_bands := r_bands r; r_nodata := r_nodata r;
     r_crs := r_crs r; r_transform := Some t |}.

Definition with_crs (c : str) (r : rast) : rast :=
  {| r_driver := r_driver r; r_width := r_width r; r_height := r_height r;
     r_bands := r_bands r; r_nodata := r_nodata r;
     r_crs := Some c; r_transform := r_transform r |}.

(** A file of [count] bands can be created at [p]: its directory is there,
    [p] names a file and is no directory, and no extent is zero. *)
Definition creatable (s : store) (p : str) (w h count : nat) : bool :=
  parent_ok s p && nonempty (OsPath.basename p) && negb (is_dir s p)
  && (0 <? w)%nat && (0 <? h)%nat && (0 <? count)%nat.

(** A new raster file at [p], its bands zero; an old file there is
    overwritten. *)
Definition create (e : exn) (p : str) (r : rast) : M unit :=
  fun s =>
    if creatable s p (r_width r) (r_height r) (length (r_bands r))
    then (Ok tt, <[p := TifFile r]> s)
    else (Raise e, s).

(** A change of the raster that is open at [p], written through. *)
Definition update (p : str) (f : rast -> rast) : M unit :=
  fun s =>
    match s !! p with
    | Some (TifFile r) => (Ok tt, <[p := TifFile (f r)]> s)
    | _ => (Ok tt, s)
    end.

(** [h5py.File(scene, 'r')] *)
Definition h5py_File (scene : str) : M h5file :=
  fun s =>
    match s !! scene with
    | Some (H5File g) => (Ok g, s)
    | _ => (Raise OSError, s)
    end.

(** The path holds no HDF5 file that can be opened. *)
Definition unreadable (s : store) (scene : str) : Prop :=
  forall g, s !! scene <> Some (H5File g).

(** [rio.open(p, 'r')] *)
Definition rio_open (p : str) : M rast :=
  fun s =>
    match s !! p with
    | Some (TifFile r) => (Ok r, s)
    | _ => (Raise LibraryError, s)
    end.

(** *** [build_viirs_tif] *)

Definition tif_dir : str := lit "data/intermediate_tif/viirs".

(** Line 42 *)
Definition dest_of (date scene : str) : str :=
  OsPath.join tif_dir [date; stem scene ++ lit ".tif"].

(** Line 86 passes no data type ([dataType] of line 84 is commented out),
    so the band has the default type of [Create], Byte: an item written to
    it is clipped to 0..255. *)
Definition to_byte (z : Z) : Z := Z.max 0 (Z.min 255 z).

Definition as_byte_band (a : ndarray) : ndarray :=
  {| shape := shape a; data := map to_byte (data a) |}.

(** Line 88: [band.WriteArray] takes an array of two dimensions and
    converts its items to the type of the band. *)
Definition WriteArray (dest : str) (a : ndarray) : M unit :=
  match shape a with
  | [_; _] => update dest (with_band 0 (as_byte_band a))
  | _ => lift (Raise ValueError)
  end.

(** What line 86 creates: one band, nothing else set yet. *)
Definition fresh_tif (nCol nRow : nat) : rast :=
  {| r_driver := lit "GTiff"; r_width := nCol; r_height := nRow;
     r_bands := [zeros [nRow; nCol]]; r_nodata := None;
     r_crs := None; r_transform := None |}.

Definition build_viirs_tif (date scene : str) : M unit :=
  let dest := dest_of date scene in
  do f <- h5py_File scene;
  do fileMetadata <- lift (fileMetadata_of f);
  do grids <- lift (grids_of f);
  let all_datasets := all_datasets_of f grids in
  do snow <- lift (snow_of f all_datasets);
  let fillValue := fillValue_of snow in
  do snow <- lift (np_array_list snow);
  do ' (ulcLon, ulcLat) <- lift (upper_left fileMetadata);
  do lrc <- lift (lower_right fileMetadata);
  let '(yRes, xRes) := (-375, 375)%Z in
  let geoInfo := (ulcLon, xRes, 0%Z, ulcLat, 0%Z, yRes) in
  do nRow <- lift (item (shape snow) 0);
  do nCol <- lift (item (shape snow) 1);
  create AttributeError dest (fresh_tif nCol nRow) ;;
  WriteArray dest snow ;;
  update dest (with_nodata (float_of_int fillValue)) ;;
  update dest (with_transform (GeoInfo geoInfo)) ;;
  update dest (with_crs prj).

(** Everything [build_viirs_tif] reads from the granule before it creates
    the raster, lines 57-82: the array, the fill value, the corner, the
    extents. *)
Definition granule_reads (f : h5file)
  : res (ndarray * Z * float * float * nat * nat) :=
  (do fileMetadata <- fileMetadata_of f;
   do grids <- grids_of f;
   do snow <- snow_of f (all_datasets_of f grids);
   let fillValue := fillValue_of snow in
   do snow <- np_array_list snow;
   do ' (ulcLon, ulcLat) <- upper_left fileMetadata;
   do lrc <- lower_right fileMetadata;
   do nRow <- item (shape snow) 0;
   do nCol <- item (shape snow) 1;
   Ok (snow, fillValue, ulcLon, ulcLat, nRow, nCol))%R.

(** The dataset line 67 selects. *)
Definition snow_dataset (f : h5file) : res dataset :=
  (do grids <- grids_of f; snow_of f (all_datasets_of f grids))%R.

(** The raster of a conversion that ran to its end. *)
Definition built_tif (snow : ndarray) (fillValue : Z)
    (ulcLon ulcLat : float) (nRow nCol : nat) : rast :=
  {| r_driver := lit "GTiff"; r_width := nCol; r_height := nRow;
     r_bands := [as_byte_band snow];
     r_nodata := Some (float_of_int fillValue);
     r_crs := Some prj;
     r_transform :=
       Some (GeoInfo (ulcLon, 375%Z, 0%Z, ulcLat, 0%Z, (-375)%Z)) |}.

(** *** [reproject_viirs] *)

(** Line 111 *)
Definition out_of (date name : str) : str :=
  OsPath.join tif_dir [date; name ++ lit "_out.tif"].

(** Lines 131-140: band [i] of the source resampled into band [i] of the
    destination, nearest neighbour. *)
Fixpoint reproject_bands (dst : str) (src : rast) (t : affine)
    (dst_crs : str) (w h : nat) (i : nat) (bs : list ndarray) : M unit :=
  match bs with
  | [] => ret tt
  | b :: bs' =>
    do out <- lift (reproject b (r_transform src) (r_crs src) t dst_crs
                      nearest w h);
    update dst (with_band i out) ;;
    reproject_bands dst src t dst_crs w h (S i) bs'
  end.

Definition reproject_viirs (date name src dst_crs : str) : M unit :=
  let intermediate_tif := out_of date name in
  do src <- rio_open src;
  let '(left_, bottom, right_, top) :=
    bounds_of (r_transform src) (r_width src) (r_height src) in
  do ' (t, width, height) <-
    lift (calculate_default_transform (r_crs src) dst_crs
            (r_width src) (r_height src) left_ bottom right_ top RES);
  let kwargs :=
    {| r_driver := lit "GTiff"; r_width := width; r_height := height;
       r_bands := repeat (zeros [height; width]) (length (r_bands src));
       r_nodata := r_nodata src; r_crs := Some dst_crs;
       r_transform := Some (Affine t) |} in
  create LibraryError intermediate_tif kwargs ;;
  reproject_bands intermediate_tif src t dst_crs width height 0
    (r_bands src).

(** *** [create_viirs_mosaic] *)

Definition shared_root : str :=
  lit "/home/jovyan/geoanalytics_user_shared_data".

(** Line 145 *)
Definition int_pth_of (date : str) : str :=
  OsPath.join (lit "data")
    [lit "intermediate_tif"; lit "viirs"; date; lit "final.tif"].

(** Line 144: [date.split('.')[0]] *)
Definition year_of (date : str) : str :=
  match split date (lit ".") with
  | Ok (y :: _) => y
  | _ => []
  end.

(** Line 146 *)
Definition out_pth_of (date : str) : str :=
  OsPath.join shared_root
    [lit "modis-terra"; lit "mosaics"; lit "viirs"; year_of date].

(** Line 174 *)
Definition fin_pth_of (date : str) : str :=
  OsPath.join (out_pth_of date) [date ++ lit ".tif"].

(** Lines 154-156 *)
Fixpoint open_all (paths : list str) : M (list rast) :=
  match paths with
  | [] => ret []
  | f :: paths' =>
    do src <- rio_open f;
    do rest <- open_all paths';
    ret (src :: rest)
  end.

Fixpoint chunks (n k : nat) (l : list Z) : list (list Z) :=
  match n with
  | O => []
  | S n' => take k l :: chunks n' k (drop k l)
  end.

(** [dst.write(mosaic)]: an array of bands, as many as the file has. *)
Definition write_all (p : str) (count h w : nat) (a : ndarray) : M unit :=
  if bool_decide (shape a = [count; h; w]) then
    update p (with_bands
                (map (fun d => {| shape := [h; w]; data := d |})
                   (chunks count (h * w) (data a))))
  else lift (Raise ValueError).

Definition create_viirs_mosaic (pth : str) : M unit :=
  let date := OsPath.basename pth in
  let int_pth := int_pth_of date in
  let out_pth := out_pth_of date in
  try_pass (makedirs out_pth) ;;
  do src_files_path <- glob (OsPath.join pth [lit "*_out.tif"]);
  do src_files_to_mosaic <- open_all src_files_path;
  match last src_files_to_mosaic with
  | Some src =>
    do ' (mosaic, out_trans) <- lift (merge src_files_to_mosaic BOUNDS RES);
    do height <- lift (item (shape mosaic) 1);
    do width <- lift (item (shape mosaic) 2);
    let count := length (r_bands src) in
    let out_meta :=
      {| r_driver := lit "GTiff"; r_width := width; r_height := height;
         r_bands := repeat (zeros [height; width]) count;
         r_nodata := r_nodata src; r_crs := r_crs src;
         r_transform := Some (Affine out_trans) |} in
    create LibraryError int_pth out_meta ;;
    write_all int_pth count height width mosaic
  | None => ret tt
  end ;;
  let fin_pth := fin_pth_of date in
  ret tt.



(** *** [distribute]

    The pool cuts the batch into chunks in the order of the batch; a worker
    runs a chunk to its end or to its first exception; every chunk is run,
    and [starmap] then raises if one of them raised.  The chunks are taken
    one after the other here, in the order of submission: one schedule of
    the six processes.  What is proved of a batch below rests on
    invariants of the single units, which every schedule keeps. *)
Definition pool_size : nat := 6.

Definition chunksize (len : nat) : nat :=
  let slots := (pool_size * 4)%nat in
  if (len `mod` slots =? 0)%nat then (len `div` slots)%nat
  else S (len `div` slots).

Fixpoint get_tasks {A} (n size : nat) (it : list A) : list (list A) :=
  match n, it with
  | S n', _ :: _ => take size it :: get_tasks n' size (drop size it)
  | _, _ => []
  end.

Fixpoint run_chunk {A} (func : A -> M unit) (chunk : list A) : M unit :=
  match chunk with
  | [] => ret tt
  | a :: chunk' => func a ;; run_chunk func chunk'
  end.

Fixpoint run_chunks {A} (func : A -> M unit) (cs : list (list A)) : M unit :=
  fun s =>
    match cs with
    | [] => (Ok tt, s)
    | c :: cs' =>
      let '(r, s1) := run_chunk func c s in
      let '(r', s2) := run_chunks func cs' s1 in
      (match r with Raise e => Raise e | Ok _ => r' end, s2)
    end.

Definition distribute {A} (func : A -> M unit) (args : list A) : M unit :=
  run_chunks func (get_tasks (length args) (chunksize (length args)) args).

(** *** [clean]

    Not called by [process_viirs]; it looks under [modis], not [viirs]. *)

(** [os.remove(p)] *)
Definition remove (p : str) : M unit :=
  fun s =>
    match s !! p with
    | Some Dir => (Raise OSError, s)
    | Some _ => (Ok tt, delete p s)
    | None => (Raise FileNotFoundError, s)
    end.

Definition clean (date : str) : M unit :=
  do residual_files <-
    glob (OsPath.join (lit "data")
            [lit "intermediate_tif"; lit "modis"; date; lit "*.tif"]);
  match residual_files with
  | [] => ret tt
  | _ => run_chunk remove residual_files
  end.

(** The pattern of line 182. *)
Definition modis_pattern (date : str) : str :=
  OsPath.join (lit "data")
    [lit "intermediate_tif"; lit "modis"; date; lit "*.tif"].

(** *** [process_viirs] *)

Definition granule_pattern (date : str) : str :=
  OsPath.join shared_root
    [lit "modis-terra"; lit "VNP10A1F.001"; date; lit "*.h5"].

Definition intermediate_pth_of (date : str) : str :=
  OsPath.join (lit "data") [lit "intermediate_tif"; lit "viirs"; date].

Definition process_viirs (date : str) : M unit :=
  try_pass (makedirs (intermediate_pth_of date)) ;;
  let dst_crs := lit "EPSG:4326" in
  let intermediate_pth := intermediate_pth_of date in
  try_pass (makedirs intermediate_pth) ;;
  do viirs_granules <- glob (granule_pattern date);
  let proc_inputs := map (fun g => (date, g)) viirs_granules in
  distribute (fun '(d, g) => build_viirs_tif d g) proc_inputs ;;
  do intermediate_tifs <- glob (OsPath.join intermediate_pth [lit "*.tif"]);
  let reproj_args :=
    map (fun tif => (date, stem tif, tif, dst_crs)) intermediate_tifs in
  distribute (fun '(d, name, src, crs) => reproject_viirs d name src crs)
    reproj_args ;;
  create_viirs_mosaic intermediate_pth.

(** The store after the Init stage, lines 200-213, and the granules the
    Discover stage then finds, line 214. *)
Definition init_store (date : str) (s : store) : store :=
  snd (try_pass (makedirs (intermediate_pth_of date))
         (snd (try_pass (makedirs (intermediate_pth_of date)) s))).

Definition viirs_granules_of (date : str) (s : store) : list str :=
  glob_list (init_store date s) (granule_pattern date).

(** The units of work of the two stages, as [starmap] calls them. *)
Definition convert_unit : str * str -> M unit :=
  fun '(d, g) => build_viirs_tif d g.

Definition reproject_unit : str * str * str * str -> M unit :=
  fun '(d, name, src, crs) => reproject_viirs d name src crs.

(** The store after the Convert stage and what line 223 then enumerates;
    the store after the Reproject stage and what line 151 then
    enumerates. *)
Definition convert_store (date : str) (s : store) : store :=
  snd (distribute convert_unit
         (map (fun g => (date, g)) (viirs_granules_of date s))
         (init_store date s)).

Definition intermediate_tifs_of (date : str) (s : store) : list str :=
  glob_list (convert_store date s)
    (OsPath.join (intermediate_pth_of date) [lit "*.tif"]).

Definition reproject_store (date : str) (s : store) : store :=
  snd (distribute reproject_unit
         (map (fun tif => (date, stem tif, tif, lit "EPSG:4326"))
            (intermediate_tifs_of date s))
         (convert_store date s)).

Definition src_files_path_of (date : str) (s : store) : list str :=
  let pth := intermediate_pth_of date in
  glob_list
    (snd (makedirs (out_pth_of (OsPath.basename pth)) (reproject_store date s)))
    (OsPath.join pth [lit "*_out.tif"]).

(** A date that is one plain directory name, as [YYYY.MM.DD] is: not
    empty, no slash, no wildcard. *)
Definition plain_date (date : str) : Prop :=
  date <> [] /\ (OsPath.slash ∉ date) /\ has_magic date = false.

End Pipeline.

Arguments glob_list {L} glob_dirs s pattern.
Arguments glob {L} glob_dirs pattern s.
Arguments create_viirs_mosaic {L} glob_dirs pth s.
Arguments process_viirs {L} glob_dirs date s.
Arguments clean {L} glob_dirs date s.
Arguments viirs_granules_of {L} glob_dirs date s.
Arguments intermediate_tifs_of {L} glob_dirs date s.
Arguments src_files_path_of {L} glob_dirs date s.

(** ** A stand-in for the libraries

    To run the pipeline on concrete stores the interface is filled in:
    exact decimals [m / 10^e] for the doubles, plain decimal text for
    [float], and the simplest raster operations that keep the extents
    right. *)
Module Demo.

Definition dec : Type := Z * nat.

Fixpoint digits (s : str) (acc : Z) : option Z :=
  match s with
  | [] => Some acc
  | c :: s' =>
    if in_range 48 57 c then digits s' (10 * acc + Z.of_N (c - 48))%Z
    else None
  end.

Definition parse_dec (s : str) : res dec :=
  let '(sign, body) :=
    match s with
    | 45 :: r => ((-1)%Z, r)
    | _ => (1%Z, s)
    end in
  match split body (lit ".") with
  | Ok [i] =>
    match i, digits i 0 with
    | _ :: _, Some n => Ok ((sign * n)%Z, O)
    | _, _ => Raise ValueError
    end
  | Ok [i; f] =>
    match i ++ f, digits (i ++ f) 0 with
    | _ :: _, Some n => Ok ((sign * n)%Z, length f)
    | _, _ => Raise ValueError
    end
  | _ => Raise ValueError
  end.

Definition dec_lit (s : string) : dec :=
  match parse_dec (lit s) with
  | Ok d => d
  | Raise _ => (0%Z, O)
  end.

Definition dec_plus (d : dec) (k : Z) : dec :=
  (fst d + k * 10 ^ Z.of_nat (snd d), snd d)%Z.

Definition aff : Type := dec * dec * dec.

Definition demo_bounds (t : option (transform dec aff)) (w h : nat)
  : dec * dec * dec * dec :=
  match t with
  | Some (GeoInfo (x, xr, _, y, _, yr)) =>
    (x, dec_plus y (Z.of_nat h * yr), dec_plus x (Z.of_nat w * xr), y)
  | Some (Affine (_, x, y)) => (x, y, x, y)
  | None => ((0%Z, O), (0%Z, O), (0%Z, O), (0%Z, O))
  end.

Definition demo_cdt (_ : option str) (_ : str) (w h : nat)
    (l _ _ t resolution : dec) : res (aff * nat * nat) :=
  if (0 <? w)%nat && (0 <? h)%nat then Ok ((resolution, l, t), w, h)
  else Raise LibraryError.

Definition demo_reproject (b : ndarray) (_ : option (transform dec aff))
    (_ : option str) (_ : aff) (_ : str) (_ : Resampling) (w h : nat)
  : res ndarray :=
  Ok {| shape := [h; w];
        data := take (h * w) (data b ++ repeat 0%Z (h * w)) |}.

Definition demo_merge (rs : list (raster dec aff))
    (bounds : dec * dec * dec * dec) (resolution : dec)
  : res (ndarray * aff) :=
  match rs with
  | [] => Raise LibraryError
  | r :: _ =>
    let '(west, _, _, north) := bounds in
    Ok ({| shape := [length (r_bands r); r_height r; r_width r];
           data := concat (map data (r_bands r)) |},
        (resolution, west, north))
  end.

Definition lib : Lib :=
  {| float := dec;
     affine := aff;
     float_of_str := parse_dec;
     float_of_int := fun z => (z, O);
     float_lit := dec_lit;
     bounds_of := demo_bounds;
     calculate_default_transform := demo_cdt;
     reproject := demo_reproject;
     merge := demo_merge |}.

Definition no_dirs (_ : gmap str (node dec aff)) (_ : str) : list str := [].

(** One granule of two rows and three columns, with a fill value. *)
Definition blob : bytes :=
  lit "GROUP=GridStructure GROUP=GRID_1 GridName='NPP_Grid_IMG_2D' XDim=3 YDim=2 UpperLeftPointMtrs=(-8895604.157333,6671703.118000) LowerRightMtrs=(-7783653.637667,5559752.598333) Projection=HE5_GCTP_SNSOID END".

Definition h5_with (attrs : list (str * attr)) (meta : bytes) : h5file :=
  [ (lit "HDFEOS", Group);
    (lit "HDFEOS/GRIDS", Group);
    (lit "HDFEOS/GRIDS/NPP_Grid_IMG_2D", Group);
    (lit "HDFEOS/GRIDS/NPP_Grid_IMG_2D/Data Fields", Group);
    (lit "HDFEOS/GRIDS/NPP_Grid_IMG_2D/Data Fields/CGF_NDSI_Snow_Cover",
     Dataset {| ds_value := VArray {| shape := [2; 3]%nat;
                                      data := [10; 20; 250; 40; 250; 0]%Z |};
                ds_attrs := attrs |});
    (lit "HDFEOS INFORMATION", Group);
    (lit "HDFEOS INFORMATION/StructMetadata.0",
     Dataset {| ds_value := VBytes meta; ds_attrs := [] |}) ].

Definition granule : h5file :=
  h5_with [(lit "_FillValue", AArray [250%Z])] blob.

Definition date : str := lit "2021.01.01".

Definition granule_dir : str :=
  lit "/home/jovyan/geoanalytics_user_shared_data/modis-terra/VNP10A1F.001/2021.01.01".

Definition scene : str := granule_dir ++ lit "/VNP10A1F.A2021001.h10v03.h5".

Definition day_dir : str := lit "data/intermediate_tif/viirs/2021.01.01".

(** The store before the first run: the granule in its directory. *)
Definition store0 : gmap str (node dec aff) :=
  <[scene := H5File granule]> (<[granule_dir := Dir]> ∅).

(** The same with the directory of the day in place. *)
Definition store1 : gmap str (node dec aff) := <[day_dir := Dir]> store0.

Definition tif : str := day_dir ++ lit "/VNP10A1F.A2021001.h10v03.tif".
Definition out_tif : str := day_dir ++ lit "/VNP10A1F.A2021001.h10v03_out.tif".
Definition final_tif : str := day_dir ++ lit "/final.tif".

(** After the conversion of the granule, and after the reprojection of its
    raster. *)
Definition store2 : gmap str (node dec aff) :=
  snd (build_viirs_tif (L := lib) date scene store1).

Definition store3 : gmap str (node dec aff) :=
  snd (reproject_viirs (L := lib) date (stem tif) tif (lit "EPSG:4326") store2).

Definition native_raster : raster dec aff :=
  Eval vm_compute in
    match store2 !! tif with
    | Some (TifFile r) => r
    | _ => fresh_tif (L := lib) 0 0
    end.

Definition out_raster : raster dec aff :=
  Eval vm_compute in
    match store3 !! out_tif with
    | Some (TifFile r) => r
    | _ => fresh_tif (L := lib) 0 0
    end.

(** A granule without fill value, and one whose metadata has no corner. *)
Definition bare_granule : h5file := h5_with [] blob.

Definition bad_granule : h5file :=
  h5_with [(lit "_FillValue", AArray [250%Z])]
    (lit "GROUP=GridStructure GridName='NPP_Grid_IMG_2D' XDim=3 YDim=2 END").

Definition bad_store : gmap str (node dec aff) :=
  <[scene := H5File bad_granule]> (<[granule_dir := Dir]> ∅).

(** A blob with two tokens that hold the marker. *)
Definition two_corners : bytes :=
  lit "UpperLeftPointMtrs=(1,2) UpperLeftPointMtrs=(3,4)".

(** A granule whose fill value is a scalar attribute. *)
Definition scalar_granule : h5file :=
  h5_with [(lit "_FillValue", AScalar 250%Z)] blob.

Definition scalar_snow : dataset :=
  {| ds_value := VArray {| shape := [2; 3]%nat;
                           data := [10; 20; 250; 40; 250; 0]%Z |};
     ds_attrs := [(lit "_FillValue", AScalar 250%Z)] |}.

Definition scalar_store : gmap str (node dec aff) :=
  <[scene := H5File scalar_granule]> store1.

(** A granule whose metadata has the upper left corner only, and one whose
    snow-cover dataset has one dimension. *)
Definition cornerless_granule : h5file :=
  h5_with [(lit "_FillValue", AArray [250%Z])]
    (lit "GROUP=GridStructure GridName='NPP_Grid_IMG_2D' XDim=3 YDim=2 UpperLeftPointMtrs=(-8895604.157333,6671703.118000) END").

Definition flat_array : ndarray :=
  {| shape := [6]%nat; data := [10; 20; 250; 40; 250; 0]%Z |}.

Definition flat_snow : dataset :=
  {| ds_value := VArray flat_array; ds_attrs := [] |}.

Definition flat_granule : h5file :=
  [ (lit "HDFEOS", Group);
    (lit "HDFEOS/GRIDS", Group);
    (lit "HDFEOS/GRIDS/NPP_Grid_IMG_2D", Group);
    (lit "HDFEOS/GRIDS/NPP_Grid_IMG_2D/Data Fields", Group);
    (lit "HDFEOS/GRIDS/NPP_Grid_IMG_2D/Data Fields/CGF_NDSI_Snow_Cover",
     Dataset flat_snow);
    (lit "HDFEOS INFORMATION", Group);
    (lit "HDFEOS INFORMATION/StructMetadata.0",
     Dataset {| ds_value := VBytes blob; ds_attrs := [] |}) ].

(** The same libraries, but with a resampling and a merge that fail. *)
Definition failing_lib : Lib :=
  {| float := dec;
     affine := aff;
     float_of_str := parse_dec;
     float_of_int := fun z => (z, O);
     float_lit := dec_lit;
     bounds_of := demo_bounds;
     calculate_default_transform := demo_cdt;
     reproject := fun _ _ _ _ _ _ _ _ => Raise LibraryError;
     merge := fun _ _ _ => Raise LibraryError |}.

(** A raster of no width, in the place of the raster of the granule. *)
Definition empty_raster : raster dec aff :=
  {| r_driver := lit "GTiff"; r_width := 0; r_height := 2; r_bands := [];
     r_nodata := None; r_crs := None; r_transform := None |}.

Definition empty_raster_store : gmap str (node dec aff) :=
  <[tif := TifFile empty_raster]> store1.

(** A file that is no raster under a name that the Mosaic stage
    enumerates. *)
Definition stray_out : str := day_dir ++ lit "/notes_out.tif".

Definition stray_store : gmap str (node dec aff) :=
  <[stray_out := OtherFile]> store1.














(** A store without any entry. *)
Definition empty_store : gmap str (node dec aff) := ∅.

(** The directory of the day with its parent in the store. *)
Definition store_with_parent : gmap str (node dec aff) :=
  <[lit "data/intermediate_tif/viirs" := Dir]> store1.

(** Residual files of the MODIS pipeline for the day, beside what a run of
    the VIIRS pipeline left. *)
Definition modis_dir : str := lit "data/intermediate_tif/modis/2021.01.01".

Definition modis_tif : str := modis_dir ++ lit "/MOD10A1.A2021001.h10v03.tif".

Definition modis_store : gmap str (node dec aff) :=
  <[modis_tif := OtherFile]> (<[modis_dir := Dir]> store3).

End Demo.

(** * Properties *)

(** ** Text *)

Section TextFacts.
Implicit Types s p sep cur : str.

Lemma strip_prefix_app p s : strip_prefix p (p ++ s) = Some s.
Proof.
  induction p as [|a p IH]; simpl; [done|].
  by rewrite N.eqb_refl.
Qed.

Lemma strip_prefix_Some p s r : strip_prefix p s = Some r -> s = p ++ r.
Proof.
  revert s; induction p as [|a p IH]; intros [|b s]; simpl; try congruence.
  destruct (a =? b) eqn:E; [|done].
  apply N.eqb_eq in E as ->. intros H. by rewrite (IH _ H).
Qed.

Lemma strip_prefix_absent sep x s :
  x ∈ sep -> x ∉ s -> strip_prefix sep s = None.
Proof.
  intros Hin Hout. destruct (strip_prefix sep s) as [r|] eqn:E; [|done].
  apply strip_prefix_Some in E as ->.
  exfalso. apply Hout. apply elem_of_app. by left.
Qed.

Lemma startswith_app s p : startswith (p ++ s) p = true.
Proof. unfold startswith. by rewrite strip_prefix_app. Qed.

Lemma contains_app m pre suf : contains m (pre ++ m ++ suf) = true.
Proof.
  induction pre as [|c pre IH].
  - pose proof (startswith_app suf m) as Hs. simpl.
    destruct (m ++ suf); simpl; by rewrite Hs.
  - simpl. rewrite IH. apply orb_true_r.
Qed.

Lemma split_go_nonempty sep n cur s : split_go sep n cur s <> [].
Proof.
  revert cur s; induction n as [|n IH]; intros cur [|c s]; simpl; try done.
  destruct (strip_prefix sep (c :: s)); [done|apply IH].
Qed.

Lemma last_item_cons {A} (x : A) l : l <> [] -> last_item (x :: l) = last_item l.
Proof. by destruct l. Qed.

(** A text without some character of the separator is one piece. *)
Lemma split_go_free sep x n cur s :
  x ∈ sep -> x ∉ s -> split_go sep n cur s = [cur ++ s].
Proof.
  intros Hin. revert cur s.
  induction n as [|n IH]; intros cur [|c s] Hout; simpl;
    rewrite ?app_nil_r; try done.
  rewrite (strip_prefix_absent sep x) by done.
  rewrite IH by (by apply not_elem_of_cons in Hout as [_ ?]).
  by rewrite <- app_assoc.
Qed.

(** The first occurrence of a separator of one character. *)
Lemma split_go_char c A B n cur :
  c ∉ A -> (length (A ++ c :: B) <= n)%nat ->
  split_go [c] n cur (A ++ c :: B)
  = (cur ++ A) :: split_go [c] (n - length A - 1) [] B.
Proof.
  revert n cur. induction A as [|a A IH]; intros n cur Hout Hlen.
  - destruct n as [|n]; simpl in *; [lia|].
    rewrite N.eqb_refl, app_nil_r. do 2 f_equal. lia.
  - apply not_elem_of_cons in Hout as [Hne Hout].
    destruct n as [|n]; simpl in *; [lia|].
    destruct (c =? a) eqn:E; [apply N.eqb_eq in E; congruence|].
    rewrite IH by (done || lia). by rewrite <- app_assoc.
Qed.

(** After its last piece of [=(] a text is its last piece. *)
Lemma split_go_last n : forall a rest cur,
  lparen ∉ rest -> (length (a ++ [equals; lparen] ++ rest) <= n)%nat ->
  last_item (split_go [equals; lparen] n cur (a ++ [equals; lparen] ++ rest))
  = Ok rest.
Proof.
  assert (Hin : lparen ∈ [equals; lparen]).
  { apply elem_of_cons; right. by apply elem_of_cons; left. }
  induction n as [|n IH]; intros a rest cur Hout Hlen.
  { rewrite length_app in Hlen. simpl in Hlen. lia. }
  destruct a as [|a0 a].
  - cbn [app split_go strip_prefix]. rewrite !N.eqb_refl.
    rewrite last_item_cons by apply split_go_nonempty.
    by rewrite (split_go_free _ lparen).
  - cbn [app split_go].
    destruct (strip_prefix _ (a0 :: _)) as [r|] eqn:E.
    + apply strip_prefix_Some in E.
      rewrite last_item_cons by apply split_go_nonempty.
      destruct a as [|a1 a]; [discriminate E|].
      simpl in E. injection E as _ _ <-.
      apply IH; [done|].
      rewrite !length_app in *. simpl in *. lia.
    + apply IH; [done|]. rewrite !length_app in *. simpl in *. lia.
Qed.

Lemma first_filter_app {A} (f : A -> bool) before x after :
  Forall (fun t => f t = false) before -> f x = true ->
  first (List.filter f (before ++ x :: after)) = Ok x.
Proof.
  intros Hb Hx. induction Hb as [|t before Ht _ IH]; simpl.
  - by rewrite Hx.
  - by rewrite Ht.
Qed.

End TextFacts.

(** ** The upper left corner *)

Section Extraction.
Context {L : Lib}.

Lemma plain_tail X Y :
  plain X -> plain Y -> lparen ∉ X ++ lit "," ++ Y ++ lit ")".
Proof.
  intros (HX & _ & _) (HY & _ & _).
  rewrite !not_elem_of_app. repeat split; try done.
  - intros H; apply elem_of_cons in H as [H|H]; [discriminate H|].
    by apply elem_of_nil in H.
  - intros H; apply elem_of_cons in H as [H|H]; [discriminate H|].
    by apply elem_of_nil in H.
Qed.

Lemma replace_rparen X Y :
  plain X -> plain Y ->
  replace (X ++ lit "," ++ Y ++ lit ")") (lit ")") (lit "")
  = X ++ lit "," ++ Y.
Proof.
  intros (_ & HX & _) (_ & HY & _).
  unfold replace, split. change (lit ")") with [rparen].
  change (X ++ lit "," ++ Y ++ [rparen])
    with (X ++ lit "," ++ Y ++ rparen :: []).
  rewrite !app_assoc, split_go_char; [|rewrite <- ?app_assoc|lia].
  - destruct (_ - _ - _)%nat; simpl; by rewrite app_nil_r.
  - rewrite !not_elem_of_app. repeat split; try done.
    intros H; apply elem_of_cons in H as [H|H]; [discriminate H|].
    by apply elem_of_nil in H.
Qed.

Lemma split_comma X Y :
  plain X -> plain Y -> split (X ++ lit "," ++ Y) (lit ",") = Ok [X; Y].
Proof.
  intros (_ & _ & HX) (_ & _ & HY).
  unfold split. change (lit ",") with [comma]. cbn [app].
  rewrite split_go_char by (done || lia).
  rewrite (split_go_free _ comma); [done| |done].
  by apply elem_of_cons; left.
Qed.

(** The first token with the marker decides, and its pair is read as
    written. *)
Lemma upper_left_token before tok after pre X Y :
  Forall (fun t => contains (lit "UpperLeftPointMtrs") t = false) before ->
  tok = pre ++ lit "UpperLeftPointMtrs=(" ++ X ++ lit "," ++ Y ++ lit ")" ->
  plain X -> plain Y ->
  upper_left (before ++ tok :: after)
  = (do x <- float_of_str X; do y <- float_of_str Y; Ok (x, y))%R.
Proof.
  intros Hb -> HX HY. unfold upper_left.
  set (rest := X ++ lit "," ++ Y ++ lit ")").
  assert (Htok : pre ++ lit "UpperLeftPointMtrs=(" ++ rest
                 = (pre ++ lit "UpperLeftPointMtrs") ++ [equals; lparen] ++ rest).
  { by rewrite <- app_assoc. }
  rewrite first_filter_app; [|done|].
  2:{ rewrite Htok, <- app_assoc. apply contains_app. }
  cbn [rbind]. unfold split at 1. change (lit "=(") with [equals; lparen].
  cbn [rbind]. rewrite Htok, split_go_last; [|by apply plain_tail|done].
  cbn [rbind]. subst rest. rewrite replace_rparen, split_comma by done.
  cbn [rbind first second].
  by destruct (float_of_str X) as [x|e]; cbn [rbind].
Qed.

(** C1, as amended.  When the first whitespace-delimited token of the blob
    that contains the marker [UpperLeftPointMtrs] ends with
    [UpperLeftPointMtrs=(X,Y)], where [X] and [Y] hold no comma and no
    parenthesis, the extraction of [build_viirs_tif] yields
    [(float(X), float(Y))], [X] for the longitude and [Y] for the latitude,
    whatever tokens without the marker come before and whatever tokens come
    after. *)
Theorem upper_left_of_first_marker_token blob before tok after pre X Y :
  tokens_of blob = Ok (before ++ tok :: after) ->
  Forall (fun t => contains (lit "UpperLeftPointMtrs") t = false) before ->
  tok = pre ++ lit "UpperLeftPointMtrs=(" ++ X ++ lit "," ++ Y ++ lit ")" ->
  plain X -> plain Y ->
  metadata_upper_left blob
  = (do ulcLon <- float_of_str X;
     do ulcLat <- float_of_str Y;
     Ok (ulcLon, ulcLat))%R.
Proof.
  intros Hblob Hb Htok HX HY. unfold metadata_upper_left.
  rewrite Hblob. cbn [rbind]. by apply (upper_left_token _ _ _ pre).
Qed.

End Extraction.

(** ** The conversion of one granule *)

Section Conversion.
Context {L : Lib}.

Local Abbreviation rast := (raster float affine).
Local Abbreviation store := (gmap str (node float affine)).
Implicit Types s : store.

Lemma update_insert p (f : rast -> rast) r s :
  update p f (<[p := TifFile r]> s) = (Ok tt, <[p := TifFile (f r)]> s).
Proof. unfold update. by rewrite lookup_insert_eq, insert_insert_eq. Qed.

(** [build_viirs_tif] in two phases: the reads, which leave the store
    alone, then the raster. *)
Lemma build_viirs_tif_unfold date scene s :
  build_viirs_tif date scene s =
  match s !! scene with
  | Some (H5File g) =>
    match granule_reads g with
    | Ok (snow, fillValue, ulcLon, ulcLat, nRow, nCol) =>
      let dest := dest_of date scene in
      if creatable s dest nCol nRow 1 then
        match shape snow with
        | [_; _] =>
          (Ok tt,
           <[dest := TifFile (built_tif snow fillValue ulcLon ulcLat nRow nCol)]> s)
        | _ => (Raise ValueError, <[dest := TifFile (fresh_tif nCol nRow)]> s)
        end
      else (Raise AttributeError, s)
    | Raise e => (Raise e, s)
    end
  | _ => (Raise OSError, s)
  end.
Proof.
  unfold build_viirs_tif, bind, h5py_File.
  destruct (s !! scene) as [[|g|r|]|]; try done.
  unfold granule_reads, lift.
  destruct (fileMetadata_of g) as [fileMetadata|]; cbn [rbind]; [|done].
  destruct (grids_of g) as [grids|]; cbn [rbind]; [|done].
  destruct (snow_of g _) as [snow0|]; cbn [rbind]; [|done].
  destruct (np_array_list snow0) as [snow|]; cbn [rbind]; [|done].
  destruct (upper_left fileMetadata) as [[ulcLon ulcLat]|]; cbn [rbind]; [|done].
  destruct (lower_right fileMetadata) as [lrc|]; cbn [rbind]; [|done].
  destruct (item (shape snow) 0) as [nRow|]; cbn [rbind]; [|done].
  destruct (item (shape snow) 1) as [nCol|]; cbn [rbind]; [|done].
  unfold create. cbn [fresh_tif r_width r_height r_bands length].
  destruct (creatable s _ nCol nRow 1); [|done].
  unfold WriteArray.
  destruct (shape snow) as [|? [|? [|? ?]]]; try done.
  rewrite update_insert, update_insert, update_insert, update_insert.
  reflexivity.
Qed.

Lemma granule_reads_inv g snow fillValue ulcLon ulcLat nRow nCol :
  granule_reads g = Ok (snow, fillValue, ulcLon, ulcLat, nRow, nCol) ->
  exists toks snow0,
    fileMetadata_of g = Ok toks /\ snow_dataset g = Ok snow0 /\
    fillValue = fillValue_of snow0 /\ np_array_list snow0 = Ok snow /\
    upper_left toks = Ok (ulcLon, ulcLat) /\
    item (shape snow) 0 = Ok nRow /\ item (shape snow) 1 = Ok nCol.
Proof.
  unfold granule_reads, snow_dataset.
  destruct (fileMetadata_of g) as [toks|]; cbn [rbind]; [|done].
  destruct (grids_of g) as [grids|]; cbn [rbind]; [|done].
  destruct (snow_of g _) as [snow0|]; cbn [rbind]; [|done].
  destruct (np_array_list snow0) as [arr|] eqn:Ha; cbn [rbind]; [|done].
  destruct (upper_left toks) as [[lon lat]|] eqn:Hul; cbn [rbind]; [|done].
  destruct (lower_right toks) as [lrc|]; cbn [rbind]; [|done].
  destruct (item (shape arr) 0) as [r|] eqn:Hr; cbn [rbind]; [|done].
  destruct (item (shape arr) 1) as [c|] eqn:Hc; cbn [rbind]; [|done].
  intros [= <- <- <- <- <- <-]. by exists toks, snow0.
Qed.

(** A conversion that returns has written exactly its raster. *)
Lemma build_viirs_tif_inv date scene s s' :
  build_viirs_tif date scene s = (Ok tt, s') ->
  exists g snow fillValue ulcLon ulcLat nRow nCol,
    s !! scene = Some (H5File g) /\
    granule_reads g = Ok (snow, fillValue, ulcLon, ulcLat, nRow, nCol) /\
    s' = <[dest_of date scene :=
             TifFile (built_tif snow fillValue ulcLon ulcLat nRow nCol)]> s.
Proof.
  rewrite build_viirs_tif_unfold.
  destruct (s !! scene) as [[|g|r|]|] eqn:Hs; try done.
  destruct (granule_reads g) as [[[[[[snow fv] lon] lat] nRow] nCol]|] eqn:Hg;
    [|done].
  cbn zeta. destruct (creatable _ _ _ _ _); [|done].
  destruct (shape snow) as [|? [|? [|? ?]]]; try done.
  intros [= <-]. by exists g, snow, fv, lon, lat, nRow, nCol.
Qed.

(** A conversion returns when the granule reads well, its array has two
    dimensions and the raster can be created. *)
Lemma build_viirs_tif_returns date scene s g snow fillValue ulcLon ulcLat
    nRow nCol :
  s !! scene = Some (H5File g) ->
  granule_reads g = Ok (snow, fillValue, ulcLon, ulcLat, nRow, nCol) ->
  length (shape snow) = 2%nat ->
  creatable s (dest_of date scene) nCol nRow 1 = true ->
  build_viirs_tif date scene s
  = (Ok tt,
     <[dest_of date scene :=
         TifFile (built_tif snow fillValue ulcLon ulcLat nRow nCol)]> s).
Proof.
  intros Hs Hg Hsh Hc. rewrite build_viirs_tif_unfold, Hs, Hg. cbn zeta.
  rewrite Hc. by destruct (shape snow) as [|? [|? [|? ?]]].
Qed.

(** A conversion writes at its destination only. *)
Lemma build_viirs_tif_frame date scene s p :
  p <> dest_of date scene ->
  snd (build_viirs_tif date scene s) !! p = s !! p.
Proof.
  intros Hp. rewrite build_viirs_tif_unfold.
  destruct (s !! scene) as [[|g|r|]|]; try done.
  destruct (granule_reads g) as [[[[[[snow fv] lon] lat] nRow] nCol]|]; [|done].
  cbn zeta. destruct (creatable _ _ _ _ _); [|done].
  destruct (shape snow) as [|? [|? [|? ?]]]; cbn [snd];
    by rewrite lookup_insert_ne.
Qed.

(** A granule that cannot be read, or has no snow-cover dataset, or no
    marker, makes the conversion raise with the store as it was. *)
Lemma build_viirs_tif_early date scene s :
  unreadable s scene
  \/ (exists g, s !! scene = Some (H5File g) /\ (lacks_snow g \/ lacks_marker g)) ->
  exists e, build_viirs_tif date scene s = (Raise e, s).
Proof.
  rewrite build_viirs_tif_unfold. intros [Hu|(g & Hs & Hg)].
  - destruct (s !! scene) as [[|g|r|]|] eqn:Hs; eauto.
    by destruct (Hu g).
  - rewrite Hs. cut (exists e, granule_reads g = Raise e).
    { intros [e ->]. eauto. }
    unfold granule_reads.
    destruct (fileMetadata_of g) as [toks|] eqn:Ht; cbn [rbind]; [|eauto].
    destruct (grids_of g) as [grids|] eqn:Hgr; cbn [rbind]; [|eauto].
    unfold snow_of.
    destruct Hg as [Hg|Hg].
    + rewrite (Hg grids Hgr). cbn [first rbind]. eauto.
    + destruct (first _) as [a|]; cbn [rbind]; [|eauto].
      destruct (h5_get g a) as [[|d]|]; cbn [rbind]; eauto.
      destruct (np_array_list d); cbn [rbind]; [|eauto].
      unfold upper_left. rewrite (Hg toks Ht). cbn [first rbind]. eauto.
Qed.

(** C2.  A conversion that runs to its end writes as no-data value the
    first item of the [_FillValue] attribute of the snow-cover dataset when
    the attribute is an array with an item, and 255 in every other case:
    when the attribute is absent, when it is a scalar, and when it is an
    array without items. *)
Theorem nodata_is_first_fill_item_or_255 date scene s s' :
  build_viirs_tif date scene s = (Ok tt, s') ->
  exists g snow r,
    s !! scene = Some (H5File g) /\ snow_dataset g = Ok snow /\
    s' !! dest_of date scene = Some (TifFile r) /\
    (forall v vs,
       assoc (lit "_FillValue") (ds_attrs snow) = Some (AArray (v :: vs)) ->
       r_nodata r = Some (float_of_int v)) /\
    (assoc (lit "_FillValue") (ds_attrs snow) = None ->
       r_nodata r = Some (float_of_int 255)) /\
    (forall v,
       assoc (lit "_FillValue") (ds_attrs snow) = Some (AScalar v) ->
       r_nodata r = Some (float_of_int 255)) /\
    (assoc (lit "_FillValue") (ds_attrs snow) = Some (AArray []) ->
       r_nodata r = Some (float_of_int 255)).
Proof.
  intros (g & arr & fv & lon & lat & nRow & nCol & Hs & Hg & ->)
    %build_viirs_tif_inv.
  apply granule_reads_inv in Hg
    as (toks & snow & _ & Hsnow & -> & _ & _ & _ & _).
  exists g, snow, (built_tif arr (fillValue_of snow) lon lat nRow nCol).
  rewrite lookup_insert_eq. cbn [built_tif r_nodata].
  unfold fillValue_of, read_fill. repeat split; try done.
  - by intros v vs ->.
  - by intros ->.
  - by intros v ->.
  - by intros ->.
Qed.

(** C3.  A conversion that runs to its end writes the geotransform
    [(ulcLon, 375, 0, ulcLat, 0, -375)], with [(ulcLon, ulcLat)] the upper
    left corner read from the metadata of the granule. *)
Theorem geotransform_is_corner_and_375 date scene s s' :
  build_viirs_tif date scene s = (Ok tt, s') ->
  exists g toks ulcLon ulcLat r,
    s !! scene = Some (H5File g) /\ fileMetadata_of g = Ok toks /\
    upper_left toks = Ok (ulcLon, ulcLat) /\
    s' !! dest_of date scene = Some (TifFile r) /\
    r_transform r
    = Some (GeoInfo (ulcLon, 375%Z, 0%Z, ulcLat, 0%Z, (-375)%Z)).
Proof.
  intros (g & arr & fv & lon & lat & nRow & nCol & Hs & Hg & ->)
    %build_viirs_tif_inv.
  apply granule_reads_inv in Hg as (toks & snow & Ht & _ & _ & _ & Hul & _ & _).
  exists g, toks, lon, lat, (built_tif arr fv lon lat nRow nCol).
  by rewrite lookup_insert_eq.
Qed.

(** C10.  When the granule cannot be opened, or has no
    [CGF_NDSI_Snow_Cover] dataset, or no token with [UpperLeftPointMtrs],
    the conversion raises and the store is as it was before: nothing is
    created at the destination. *)
Theorem failed_conversion_writes_nothing date scene s :
  unreadable s scene
  \/ (exists g, s !! scene = Some (H5File g) /\ (lacks_snow g \/ lacks_marker g)) ->
  exists e,
    build_viirs_tif date scene s = (Raise e, s)
    /\ snd (build_viirs_tif date scene s) !! dest_of date scene
       = s !! dest_of date scene.
Proof.
  intros [e He]%(build_viirs_tif_early date). exists e. by rewrite He.
Qed.

End Conversion.

(** ** The reprojection of one raster *)

Section Reprojection.
Context {L : Lib}.

Local Abbreviation rast := (raster float affine).
Local Abbreviation store := (gmap str (node float affine)).
Implicit Types s : store.

Lemma with_bands_same (r : rast) : with_bands (r_bands r) r = r.
Proof. by destruct r. Qed.

(** The loop of lines 131-140 fills the bands from the first to the
    last. *)
Lemma reproject_bands_run dst (src : rast) t dst_crs w h bs :
  forall i done todo (r : rast) s outs,
    length done = i -> length todo = length bs ->
    r_bands r = done ++ todo ->
    map_res (fun b => reproject b (r_transform src) (r_crs src) t dst_crs
                        nearest w h) bs = Ok outs ->
    reproject_bands dst src t dst_crs w h i bs (<[dst := TifFile r]> s)
    = (Ok tt, <[dst := TifFile (with_bands (done ++ outs) r)]> s).
Proof.
  induction bs as [|b bs IH]; intros i done todo r s outs Hi Ht Hr Hm.
  - destruct todo; [|done]. injection Hm as <-.
    cbn [reproject_bands]. unfold ret.
    rewrite app_nil_r in *. by rewrite <- Hr, with_bands_same.
  - destruct todo as [|z todo]; [done|]. cbn [map_res] in Hm.
    destruct (reproject b _ _ _ _ _ _ _) as [out|] eqn:Hb;
      cbn [rbind] in Hm; [|done].
    destruct (map_res _ bs) as [outs'|] eqn:Hbs; cbn [rbind] in Hm; [|done].
    injection Hm as <-.
    cbn [reproject_bands]. unfold bind at 1, lift. rewrite Hb.
    unfold bind at 1. rewrite update_insert.
    rewrite (IH (S i) (done ++ [out]) todo _ s outs').
    + by rewrite <- app_assoc.
    + rewrite length_app. simpl. lia.
    + by injection Ht.
    + cbn [with_band r_bands]. rewrite Hr, <- Hi.
      rewrite <- (Nat.add_0_r (length done)), insert_app_r.
      by rewrite <- app_assoc.
    + done.
Qed.

(** C6.  For every raster at [src], [reproject_viirs] asks for the output
    grid at the resolution 0.006659501656959246 (one number for both axes),
    whatever the source is, and when the library calls succeed it returns
    with the store changed at
    [data/intermediate_tif/viirs/<date>/<name>_out.tif] only: the file
    there has the transform and extents computed for that resolution and
    the reprojected bands.  The source, at any other path, is as it
    was. *)
Theorem reproject_viirs_writes_out_tif
    date name src dst_crs s (r : rast) left_ bottom right_ top t w h outs :
  s !! src = Some (TifFile r) ->
  bounds_of (r_transform r) (r_width r) (r_height r)
  = (left_, bottom, right_, top) ->
  calculate_default_transform (r_crs r) dst_crs (r_width r) (r_height r)
    left_ bottom right_ top (float_lit "0.006659501656959246")
  = Ok (t, w, h) ->
  creatable s (out_of date name) w h (length (r_bands r)) = true ->
  map_res (fun b => reproject b (r_transform r) (r_crs r) t dst_crs
                      nearest w h) (r_bands r) = Ok outs ->
  let dst :=
    OsPath.join (lit "data/intermediate_tif/viirs")
      [date; name ++ lit "_out.tif"] in
  let out :=
    {| r_driver := lit "GTiff"; r_width := w; r_height := h;
       r_bands := outs; r_nodata := r_nodata r; r_crs := Some dst_crs;
       r_transform := Some (Affine t) |} in
  reproject_viirs date name src dst_crs s
  = (Ok tt, <[dst := TifFile out]> s)
  /\ (forall p, p <> dst ->
        snd (reproject_viirs date name src dst_crs s) !! p = s !! p)
  /\ (src <> dst ->
        snd (reproject_viirs date name src dst_crs s) !! src
        = Some (TifFile r)).
Proof.
  intros Hsrc Hb Hc Hcr Hm dst out.
  assert (Hrun : reproject_viirs date name src dst_crs s
                 = (Ok tt, <[dst := TifFile out]> s)).
  { unfold reproject_viirs, bind at 1, rio_open. rewrite Hsrc, Hb.
    unfold bind at 1, lift, RES. rewrite Hc.
    unfold bind at 1, create. cbn [r_width r_height r_bands].
    rewrite repeat_length, Hcr.
    rewrite (reproject_bands_run _ _ _ _ _ _ _ 0 []
               (repeat (zeros [h; w]) (length (r_bands r))) _ _ outs);
      try done.
    by rewrite repeat_length. }
  rewrite Hrun. cbn [snd]. repeat split.
  - intros p Hp. by rewrite lookup_insert_ne.
  - intros Hp. by rewrite lookup_insert_ne.
Qed.

End Reprojection.

(** ** Paths *)

Section PathFacts.
Implicit Types p b h t : str.

Lemma rbreak_spec p :
  match OsPath.rbreak p with
  | Some (h, t) => p = h ++ t /\ OsPath.slash ∉ t
  | None => OsPath.slash ∉ p
  end.
Proof.
  induction p as [|c p IH]; simpl.
  - apply not_elem_of_nil.
  - destruct (OsPath.rbreak p) as [[h t]|].
    + destruct IH as [-> Ht]. done.
    + destruct (c =? OsPath.slash) eqn:E; [done|].
      apply N.eqb_neq in E. apply not_elem_of_cons. split; [congruence|done].
Qed.

Lemma lstrip_slash_suffix l : exists k, l = k ++ OsPath.lstrip_slash l.
Proof.
  induction l as [|c l [k IH]]; simpl; [by exists []|].
  destruct (c =? OsPath.slash).
  - exists (c :: k). simpl. by f_equal.
  - by exists [].
Qed.

Lemma rstrip_slash_prefix p : OsPath.rstrip_slash p `prefix_of` p.
Proof.
  unfold OsPath.rstrip_slash.
  destruct (lstrip_slash_suffix (rev p)) as [k Hk].
  exists (rev k). rewrite <- rev_app_distr, <- Hk. by rewrite rev_involutive.
Qed.

Lemma split_fst_prefix p : fst (OsPath.split p) `prefix_of` p.
Proof.
  unfold OsPath.split. pose proof (rbreak_spec p) as H.
  destruct (OsPath.rbreak p) as [[h t]|]; cbn [fst].
  - destruct H as [-> _]. destruct (OsPath.all_slash h).
    + by apply prefix_app_r.
    + apply prefix_app_r, rstrip_slash_prefix.
  - apply prefix_nil.
Qed.

Lemma basename_no_slash p : OsPath.slash ∉ OsPath.basename p.
Proof.
  unfold OsPath.basename, OsPath.split. pose proof (rbreak_spec p) as H.
  destruct (OsPath.rbreak p) as [[h t]|]; cbn [snd]; [by destruct H|done].
Qed.

Lemma startswith_slash b :
  OsPath.slash ∉ b -> startswith b [OsPath.slash] = false.
Proof.
  destruct b as [|c b]; [done|]. intros [Hc _]%not_elem_of_cons.
  unfold startswith. cbn [strip_prefix].
  destruct (OsPath.slash =? c) eqn:E; [|done].
  apply N.eqb_eq in E. congruence.
Qed.

Lemma join2_ext p b :
  startswith b [OsPath.slash] = false ->
  exists x, OsPath.join2 p b = p ++ x /\ (b <> [] -> x <> []).
Proof.
  intros Hb. unfold OsPath.join2. rewrite Hb.
  destruct (match p with [] => true | _ => _ end).
  - by exists b.
  - exists ([OsPath.slash] ++ b). done.
Qed.

Lemma join2_hd p b c :
  hd_error p = Some c -> startswith b [OsPath.slash] = false ->
  hd_error (OsPath.join2 p b) = Some c.
Proof.
  intros Hp Hb. destruct (join2_ext p b Hb) as (x & -> & _).
  by destruct p.
Qed.

Lemma join2_hd_slash p b :
  hd_error p = Some OsPath.slash ->
  hd_error (OsPath.join2 p b) = Some OsPath.slash.
Proof.
  intros Hp. destruct (startswith b [OsPath.slash]) eqn:Hb.
  - unfold OsPath.join2. rewrite Hb. unfold startswith in Hb.
    destruct b as [|c b]; [done|]. cbn [strip_prefix] in Hb.
    destruct (OsPath.slash =? c) eqn:E; [|done].
    apply N.eqb_eq in E. by subst.
  - by apply join2_hd.
Qed.

Lemma endswith_app p b : endswith (p ++ b) b = true.
Proof. unfold endswith. rewrite rev_app_distr. apply startswith_app. Qed.

Lemma join2_endswith p b : endswith (OsPath.join2 p b) b = true.
Proof.
  unfold OsPath.join2.
  destruct (startswith b _); [apply (endswith_app [])|].
  destruct (match p with [] => true | _ => _ end); [apply endswith_app|].
  rewrite app_assoc. apply endswith_app.
Qed.

Lemma int_pth_hd pth : hd_error (int_pth_of (OsPath.basename pth)) = Some 100.
Proof.
  unfold int_pth_of, OsPath.join. cbn [fold_left].
  apply join2_hd; [|done].
  apply join2_hd; [done|]. apply startswith_slash, basename_no_slash.
Qed.

Lemma out_pth_hd date : hd_error (out_pth_of date) = Some OsPath.slash.
Proof.
  unfold out_pth_of, OsPath.join. cbn [fold_left].
  by apply join2_hd_slash.
Qed.

Lemma fin_pth_hd date : hd_error (fin_pth_of date) = Some OsPath.slash.
Proof.
  unfold fin_pth_of, OsPath.join. cbn [fold_left].
  apply join2_hd_slash, out_pth_hd.
Qed.

Lemma fin_pth_longer pth :
  ~ fin_pth_of (OsPath.basename pth) `prefix_of` out_pth_of (OsPath.basename pth).
Proof.
  unfold fin_pth_of, OsPath.join. cbn [fold_left].
  destruct (join2_ext (out_pth_of (OsPath.basename pth))
              (OsPath.basename pth ++ lit ".tif")) as (x & -> & Hx).
  { apply startswith_slash. apply not_elem_of_app. split.
    - apply basename_no_slash.
    - by apply (bool_decide_unpack _). }
  intros Hp%prefix_length. rewrite length_app in Hp.
  destruct x; [|simpl in Hp; lia].
  apply Hx; [|done]. by destruct (OsPath.basename pth).
Qed.

End PathFacts.

(** ** Directories *)

Section Directories.
Context {L : Lib}.

Local Abbreviation rast := (raster float affine).
Local Abbreviation store := (gmap str (node float affine)).
Implicit Types s : store.

Lemma grows_refl name s : grows name s s.
Proof. intros q. by left. Qed.

Lemma grows_trans name s1 s2 s3 :
  grows name s1 s2 -> grows name s2 s3 -> grows name s1 s3.
Proof.
  intros H12 H23 q.
  destruct (H12 q) as [E12|(N1 & D2 & Hp & Hq)],
           (H23 q) as [E23|(N2 & D3 & Hp' & Hq')].
  - left. congruence.
  - right. repeat split; congruence.
  - right. repeat split; congruence.
  - congruence.
Qed.

Lemma grows_mono name name' s s' :
  name `prefix_of` name' -> grows name s s' -> grows name' s s'.
Proof.
  intros Hn H q. destruct (H q) as [E|(N1 & D2 & Hp & Hq)]; [by left|].
  right. repeat split; try done. by etrans.
Qed.

Lemma mkdir_grows p s : grows p s (snd (mkdir p s)).
Proof.
  unfold mkdir.
  set (p' := if OsPath.all_slash p then p else OsPath.rstrip_slash p).
  assert (Hp' : p' `prefix_of` p).
  { subst p'. destruct (OsPath.all_slash p); [done|apply rstrip_slash_prefix]. }
  destruct (exists_ s p') eqn:He; [apply grows_refl|].
  destruct (nonempty p' && parent_ok s p') eqn:Hn; [|apply grows_refl].
  intros q. cbn [snd]. destruct (decide (q = p')) as [->|Hq].
  - right. rewrite lookup_insert_eq. repeat split; try done.
    + unfold exists_ in He. apply orb_false_elim in He as [_ He].
      by destruct (s !! p').
    + apply andb_true_iff in Hn as [Hn _]. by destruct p'.
  - left. by rewrite lookup_insert_ne.
Qed.

Lemma makedirs_go_grows n : forall name s,
  grows name s (snd (makedirs_go n name s)).
Proof.
  induction n as [|n IH]; intros name s; cbn [makedirs_go].
  { apply grows_refl. }
  pose proof (split_fst_prefix name) as Hh.
  destruct (OsPath.split name) as [head tail]. cbn [fst] in Hh.
  assert (Hh2 : forall head2 tail2,
            match tail with [] => OsPath.split head | _ => (head, tail) end
            = (head2, tail2) -> head2 `prefix_of` name).
  { intros head2 tail2 E. destruct tail.
    - pose proof (split_fst_prefix head) as Hh'. rewrite E in Hh'.
      by etrans.
    - by injection E as <- _. }
  destruct (match tail with [] => _ | _ => _ end) as [head2 tail2].
  specialize (Hh2 _ _ eq_refl).
  destruct (nonempty head2 && nonempty tail2 && negb (exists_ s head2));
    [|apply mkdir_grows].
  pose proof (grows_mono _ _ _ _ Hh2 (IH head2 s)) as Hrec.
  destruct (makedirs_go n head2 s) as [r s1]. cbn [snd] in Hrec.
  assert (Hnext : grows name s
            (snd (if bool_decide (tail2 = lit ".") then (Ok tt, s1)
                  else mkdir name s1))).
  { destruct (bool_decide _); [done|].
    eapply grows_trans; [done|apply mkdir_grows]. }
  destruct r as [|[]]; done.
Qed.

Lemma makedirs_grows name s : grows name s (snd (makedirs name s)).
Proof. apply makedirs_go_grows. Qed.

(** What [makedirs] adds starts with the first character of the name. *)
Lemma grows_other_root name s s' q c d :
  grows name s s' -> hd_error name = Some c -> hd_error q = Some d ->
  c <> d -> s' !! q = s !! q.
Proof.
  intros H Hn Hq Hcd. destruct (H q) as [E|(_ & _ & [k ->] & Hne)]; [done|].
  destruct q; [done|]. simpl in *. congruence.
Qed.

(** *** Computations that write at one path *)

Lemma only_at_ret {A} p (a : A) : only_at p (ret a).
Proof. by intros s q _. Qed.

Lemma only_at_lift {A} p (r : res A) : only_at p (lift r).
Proof. by intros s q _. Qed.

Lemma only_at_bind {A B} p (m : M A) (k : A -> M B) :
  only_at p m -> (forall a, only_at p (k a)) -> only_at p (bind m k).
Proof.
  intros Hm Hk s q Hq. unfold bind. specialize (Hm s q Hq).
  destruct (m s) as [[a|e] s1]; cbn [snd] in *; [|done].
  by rewrite Hk.
Qed.

Lemma only_at_update p f : only_at p (update p f).
Proof.
  intros s q Hq. unfold update.
  destruct (s !! p) as [[]|]; cbn [snd]; try done.
  by rewrite lookup_insert_ne.
Qed.

Lemma only_at_create e p (r : rast) : only_at p (create e p r).
Proof.
  intros s q Hq. unfold create.
  destruct (creatable _ _ _ _ _); cbn [snd]; [|done].
  by rewrite lookup_insert_ne.
Qed.

Lemma rio_open_store p s : snd (rio_open p s) = s.
Proof. unfold rio_open. by destruct (s !! p) as [[]|]. Qed.

Lemma open_all_store paths s : snd (open_all paths s) = s.
Proof.
  revert s; induction paths as [|f paths IH]; intros s; [done|].
  cbn [open_all]. unfold bind at 1.
  pose proof (rio_open_store f s) as Hf.
  destruct (rio_open f s) as [[src|e] s1]; cbn [snd] in Hf; subst; [|done].
  unfold bind. specialize (IH s).
  by destruct (open_all paths s) as [[rest|e] s1]; cbn [snd] in IH; subst.
Qed.

Lemma open_all_ok paths srcs s :
  Forall2 (fun f (src : rast) => s !! f = Some (TifFile src)) paths srcs ->
  open_all paths s = (Ok srcs, s).
Proof.
  induction 1 as [|f src paths srcs Hf _ IH]; [done|].
  cbn [open_all]. unfold bind at 1, rio_open. rewrite Hf.
  unfold bind. by rewrite IH.
Qed.

End Directories.

(** ** The mosaic *)

Section Mosaic.
Context {L : Lib}.

Local Abbreviation rast := (raster float affine).
Local Abbreviation store := (gmap str (node float affine)).
Implicit Types s : store.

Variable glob_dirs : store -> str -> list str.

(** Lines 151-174, after the archive directory was made. *)
Lemma create_viirs_mosaic_unfold pth s :
  create_viirs_mosaic glob_dirs pth s
  = let date := OsPath.basename pth in
    let s1 := snd (makedirs (out_pth_of date) s) in
    let paths := glob_list glob_dirs s1 (OsPath.join pth [lit "*_out.tif"]) in
    bind (open_all paths)
      (fun srcs =>
         bind
           match last srcs with
           | Some src =>
             bind (lift (merge srcs BOUNDS RES))
               (fun '(mosaic, out_trans) =>
                  bind (lift (item (shape mosaic) 1)) (fun height =>
                  bind (lift (item (shape mosaic) 2)) (fun width =>
                  let count := length (r_bands src) in
                  bind (create LibraryError (int_pth_of date)
                          {| r_driver := lit "GTiff"; r_width := width;
                             r_height := height;
                             r_bands := repeat (zeros [height; width]) count;
                             r_nodata := r_nodata src; r_crs := r_crs src;
                             r_transform := Some (Affine out_trans) |})
                    (fun _ => write_all (int_pth_of date) count height width
                                mosaic))))
           | None => ret tt
           end
           (fun _ => ret tt)) s1.
Proof. reflexivity. Qed.

Lemma mosaic_tail_only_at pth s1 q :
  let date := OsPath.basename pth in
  let paths := glob_list glob_dirs s1 (OsPath.join pth [lit "*_out.tif"]) in
  q <> int_pth_of date ->
  snd (create_viirs_mosaic glob_dirs pth s1) !! q
  = snd (makedirs (out_pth_of date) s1) !! q.
Proof.
  intros date paths Hq. rewrite create_viirs_mosaic_unfold. cbn zeta.
  fold date. generalize (glob_list glob_dirs
    (snd (makedirs (out_pth_of date) s1)) (OsPath.join pth [lit "*_out.tif"])).
  clear paths. intros paths. revert q Hq.
  generalize (snd (makedirs (out_pth_of date) s1)).
  match goal with
  | |- forall s q, q <> ?p -> snd (?m s) !! q = s !! q =>
    change (only_at p m)
  end.
  apply only_at_bind.
  { intros s q _. by rewrite open_all_store. }
  intros srcs. apply only_at_bind; [|intros; apply only_at_ret].
  destruct (last srcs) as [src|]; [|apply only_at_ret].
  apply only_at_bind; [apply only_at_lift|]. intros [mosaic out_trans].
  apply only_at_bind; [apply only_at_lift|]. intros height.
  apply only_at_bind; [apply only_at_lift|]. intros width.
  apply only_at_bind; [apply only_at_create|]. intros _.
  unfold write_all. destruct (bool_decide _);
    [apply only_at_update|apply only_at_lift].
Qed.

(** C9.  Whatever [create_viirs_mosaic] is called on, the archive path
    [fin_pth] holds afterwards what it held before; apart from the
    intermediate [final.tif], the only change of the store is that
    directories may have been made. *)
Theorem archive_path_is_never_written pth s :
  let date := OsPath.basename pth in
  let s' := snd (create_viirs_mosaic glob_dirs pth s) in
  s' !! fin_pth_of date = s !! fin_pth_of date
  /\ forall q, q <> int_pth_of date ->
       s' !! q = s !! q \/ (s !! q = None /\ s' !! q = Some Dir).
Proof.
  intros date s'. pose proof (makedirs_grows (out_pth_of date) s) as Hg.
  split.
  - subst s'. rewrite mosaic_tail_only_at.
    + destruct (Hg (fin_pth_of date)) as [E|(_ & _ & Hp & _)]; [done|].
      by apply fin_pth_longer in Hp.
    + intros E. pose proof (fin_pth_hd date) as H1.
      pose proof (int_pth_hd pth) as H2. subst date.
      rewrite E, H2 in H1. discriminate H1.
  - intros q Hq. subst s'. rewrite mosaic_tail_only_at by done.
    destruct (Hg q) as [E|(N1 & D & _)]; [by left|by right].
Qed.

(** C4.  When the enumeration of line 151 finds no [*_out.tif] in the
    directory, [create_viirs_mosaic] returns without an exception, leaves
    [final.tif] as it was, and changes the store by nothing but the
    directories it made for the archive. *)
Theorem empty_directory_gives_no_mosaic pth s :
  let date := OsPath.basename pth in
  let s1 := snd (makedirs (out_pth_of date) s) in
  glob_list glob_dirs s1 (OsPath.join pth [lit "*_out.tif"]) = [] ->
  create_viirs_mosaic glob_dirs pth s = (Ok tt, s1)
  /\ s1 !! int_pth_of date = s !! int_pth_of date
  /\ forall q, s1 !! q = s !! q \/ (s !! q = None /\ s1 !! q = Some Dir).
Proof.
  intros date s1 Hglob. pose proof (makedirs_grows (out_pth_of date) s) as Hg.
  repeat split.
  - rewrite create_viirs_mosaic_unfold. cbn zeta. fold date s1.
    by rewrite Hglob.
  - eapply grows_other_root; [done|apply out_pth_hd|apply int_pth_hd|done].
  - intros q. destruct (Hg q) as [E|(N1 & D & _)]; [by left|by right].
Qed.




End Mosaic.

(** ** Patterns and suffixes *)

Section GlobFacts.
Implicit Types p b x suf : str.

Lemma startswith_iff a b : startswith a b = true <-> exists k, a = b ++ k.
Proof.
  unfold startswith. split.
  - destruct (strip_prefix b a) as [k|] eqn:E; [|done].
    intros _. exists k. by apply strip_prefix_Some.
  - intros [k ->]. by rewrite strip_prefix_app.
Qed.

Lemma endswith_iff a b : endswith a b = true <-> exists k, a = k ++ b.
Proof.
  unfold endswith. rewrite startswith_iff. split.
  - intros [k Hk]. exists (rev k).
    by rewrite <- (rev_involutive a), Hk, rev_app_distr, rev_involutive.
  - intros [k ->]. exists (rev k). by rewrite rev_app_distr.
Qed.

Lemma endswith_trans a b c :
  endswith a b = true -> endswith b c = true -> endswith a c = true.
Proof.
  rewrite !endswith_iff. intros [k ->] [k' ->]. exists (k ++ k').
  by rewrite app_assoc.
Qed.

(** No path ends both in [.h5] and in [.tif]. *)
Lemma h5_is_no_tif x :
  endswith x (lit ".h5") = true -> endswith x (lit ".tif") = true -> False.
Proof.
  unfold endswith, startswith.
  change (rev (lit ".h5")) with [53; 104; 46].
  change (rev (lit ".tif")) with [102; 105; 116; 46].
  destruct (rev x) as [|c r]; [done|]. cbn [strip_prefix].
  destruct (53 =? c) eqn:E1; [|done]. destruct (102 =? c) eqn:E2; [|done].
  apply N.eqb_eq in E1, E2. congruence.
Qed.

Lemma dest_of_is_tif date scene : endswith (dest_of date scene) (lit ".tif") = true.
Proof.
  unfold dest_of, OsPath.join. cbn [fold_left].
  eapply endswith_trans; [apply join2_endswith|apply endswith_app].
Qed.

(** A pattern without wildcard matches itself only. *)
Lemma fnmatch_literal pat :
  Forall (fun c => c <> star /\ c <> qmark) pat ->
  forall name, fnmatch pat name = true -> name = pat.
Proof.
  induction 1 as [|c pat [Hs Hq] _ IH]; intros name; cbn [fnmatch].
  - by destruct name.
  - apply N.eqb_neq in Hs, Hq. rewrite Hs.
    destruct name as [|d name]; [done|]. rewrite Hq. cbn [orb].
    intros [->%N.eqb_eq Hm]%andb_true_iff. f_equal. by apply IH.
Qed.

(** What [*suf] matches ends in [suf]. *)
Lemma fnmatch_star_suffix suf name :
  Forall (fun c => c <> star /\ c <> qmark) suf ->
  fnmatch (star :: suf) name = true -> endswith name suf = true.
Proof.
  intros Hsuf. cbn [fnmatch]. rewrite N.eqb_refl.
  induction name as [|d name IH].
  - rewrite orb_false_r. intros ->%(fnmatch_literal _ Hsuf).
    apply (endswith_app []).
  - intros [->%(fnmatch_literal _ Hsuf)|Hm]%orb_true_iff.
    + apply (endswith_app []).
    + apply endswith_iff. apply IH, endswith_iff in Hm as [k ->].
      by exists (d :: k).
Qed.

Lemma endswith_slash p :
  endswith p [OsPath.slash] = true -> exists h, p = h ++ [OsPath.slash].
Proof. by intros H%endswith_iff. Qed.

Lemma rbreak_none b : OsPath.slash ∉ b -> OsPath.rbreak b = None.
Proof.
  induction b as [|c b IH]; [done|].
  intros [Hc Hb]%not_elem_of_cons. simpl. rewrite (IH Hb).
  destruct (c =? OsPath.slash) eqn:E; [|done].
  apply N.eqb_eq in E. congruence.
Qed.

Lemma rbreak_app_slash h b :
  OsPath.slash ∉ b ->
  OsPath.rbreak (h ++ [OsPath.slash] ++ b) = Some (h ++ [OsPath.slash], b).
Proof.
  intros Hb. induction h as [|c h IH]; simpl.
  - by rewrite (rbreak_none b Hb).
  - simpl in IH. by rewrite IH.
Qed.

(** The last component of a joined path is the component joined last. *)
Lemma split_join2 p b :
  OsPath.slash ∉ b -> snd (OsPath.split (OsPath.join2 p b)) = b.
Proof.
  intros Hb. unfold OsPath.join2. rewrite (startswith_slash b Hb).
  unfold OsPath.split. destruct p as [|c p].
  - simpl. by rewrite (rbreak_none b Hb).
  - destruct (endswith (c :: p) [OsPath.slash]) eqn:E.
    + apply endswith_slash in E as [h ->].
      rewrite <- app_assoc. by rewrite (rbreak_app_slash h b Hb).
    + by rewrite (rbreak_app_slash (c :: p) b Hb).
Qed.

Lemma has_magic_app a b : has_magic (a ++ b) = has_magic a || has_magic b.
Proof. unfold has_magic. apply existsb_app. Qed.

Lemma has_magic_join2 p b : has_magic b = true -> has_magic (OsPath.join2 p b) = true.
Proof.
  intros Hb. unfold OsPath.join2.
  destruct (startswith b _); [done|].
  destruct (match p with [] => true | _ => _ end);
    rewrite ?has_magic_app, Hb, ?orb_true_r; done.
Qed.

End GlobFacts.

(** ** The Convert stage *)

Section Stage.
Context {L : Lib}.

Local Abbreviation rast := (raster float affine).
Local Abbreviation store := (gmap str (node float affine)).
Implicit Types s : store.

Variable glob_dirs : store -> str -> list str.

(** What [glob] finds for [.../*suf] ends in [suf]. *)
Lemma glob_list_suffix s p suf x :
  Forall (fun c => c <> star /\ c <> qmark) suf -> OsPath.slash ∉ suf ->
  In x (glob_list glob_dirs s (OsPath.join2 p (star :: suf))) ->
  endswith x suf = true.
Proof.
  intros Hlit Hsl. unfold glob_list.
  assert (Hb : OsPath.slash ∉ star :: suf).
  { apply not_elem_of_cons. split; [done|done]. }
  pose proof (split_join2 p _ Hb) as Hsp.
  destruct (OsPath.split _) as [dirname basename]. cbn [snd] in Hsp. subst.
  assert (Hmagic : has_magic (star :: suf) = true) by done.
  rewrite (has_magic_join2 p _ Hmagic). cbn [negb]. rewrite Hmagic.
  assert (Hglob1 : forall d name, In name (glob1 s d (star :: suf)) ->
                     endswith name suf = true).
  { intros d name [_ Hm]%filter_In. by apply fnmatch_star_suffix. }
  destruct dirname as [|c dirname]; [apply Hglob1|].
  intros (d & _ & (name & <- & Hn)%in_map_iff)%in_flat_map.
  unfold OsPath.join. cbn [fold_left].
  eapply endswith_trans; [apply join2_endswith|by eapply Hglob1].
Qed.

Lemma granule_is_h5 date s scene :
  In scene (viirs_granules_of glob_dirs date s) ->
  endswith scene (lit ".h5") = true.
Proof.
  unfold viirs_granules_of, granule_pattern, OsPath.join. cbn [fold_left].
  apply glob_list_suffix.
  - repeat constructor; done.
  - by apply (bool_decide_unpack _).
Qed.

(** A conversion leaves every path alone that does not end in [.tif]. *)
Lemma convert_unit_keeps a q :
  endswith q (lit ".tif") = false -> keeps q (convert_unit a).
Proof.
  intros Hq s. destruct a as [d g]. apply build_viirs_tif_frame.
  intros ->. by rewrite dest_of_is_tif in Hq.
Qed.

(** *** Chunks *)

Lemma chunksize_pos len : (0 < len -> 0 < chunksize len)%nat.
Proof.
  intros Hlen. unfold chunksize.
  pose proof (Nat.div_mod_eq len (pool_size * 4)) as Hd.
  destruct (_ =? 0)%nat eqn:E; [|lia].
  apply Nat.eqb_eq in E. lia.
Qed.

Lemma get_tasks_cover {A} n size (it : list A) :
  (0 < size)%nat -> (length it <= n)%nat ->
  concat (get_tasks n size it) = it.
Proof.
  intros Hsize. revert it. induction n as [|n IH]; intros it Hlen.
  - destruct it; [done|simpl in Hlen; lia].
  - destruct it as [|x it]; [done|]. cbn [get_tasks concat].
    rewrite IH; [apply take_drop|].
    rewrite length_drop. simpl in *. lia.
Qed.

Section Batch.
Context {A : Type} (func : A -> M unit) (Inv : store -> Prop) (a : A).
Hypothesis Inv_step : forall a' s, Inv s -> Inv (snd (func a' s)).
Hypothesis Inv_raise : forall s, Inv s -> exists e, fst (func a s) = Raise e.

Lemma run_chunk_inv chunk s : Inv s -> Inv (snd (run_chunk func chunk s)).
Proof.
  revert s. induction chunk as [|a' chunk IH]; intros s Hs; [done|].
  cbn [run_chunk]. unfold bind. specialize (Inv_step a' s Hs).
  destruct (func a' s) as [[[]|e] s1]; cbn [snd] in *; [by apply IH|done].
Qed.

Lemma run_chunk_raise chunk s :
  In a chunk -> Inv s -> exists e, fst (run_chunk func chunk s) = Raise e.
Proof.
  revert s. induction chunk as [|a' chunk IH]; intros s Hin Hs; [done|].
  cbn [run_chunk]. unfold bind.
  pose proof (Inv_step a' s Hs) as Hs1.
  destruct Hin as [->|Hin].
  - destruct (Inv_raise s Hs) as [e He].
    destruct (func a s) as [[[]|e'] s1]; cbn [fst] in *; [done|eauto].
  - destruct (func a' s) as [[[]|e'] s1]; cbn [fst snd] in *; [|eauto].
    by apply IH.
Qed.

Lemma run_chunks_raise cs s :
  In a (concat cs) -> Inv s -> exists e, fst (run_chunks func cs s) = Raise e.
Proof.
  revert s. induction cs as [|c cs IH]; intros s Hin Hs; [done|].
  cbn [run_chunks concat] in *. apply in_app_or in Hin.
  pose proof (run_chunk_inv c s Hs) as Hs1.
  destruct (run_chunk func c s) as [r s1] eqn:Hc. cbn [snd] in Hs1.
  destruct (run_chunks func cs s1) as [r' s2] eqn:Hcs. cbn [fst].
  destruct r as [[]|e]; [|eauto].
  destruct Hin as [Hin|Hin].
  - destruct (run_chunk_raise c s Hin Hs) as [e He].
    rewrite Hc in He. discriminate He.
  - destruct (IH s1 Hin Hs1) as [e He]. rewrite Hcs in He. eauto.
Qed.

(** A unit that raises makes [distribute] raise. *)
Lemma distribute_raise args s :
  In a args -> Inv s -> exists e, fst (distribute func args s) = Raise e.
Proof.
  intros Hin Hs. apply run_chunks_raise; [|done].
  rewrite get_tasks_cover; [done| |done].
  apply chunksize_pos. destruct args; [done|simpl; lia].
Qed.

End Batch.

(** [process_viirs] from the Convert stage on. *)
Lemma process_viirs_unfold date s :
  process_viirs glob_dirs date s
  = bind (distribute convert_unit
            (map (fun g => (date, g)) (viirs_granules_of glob_dirs date s)))
      (fun _ =>
         bind (glob glob_dirs
                 (OsPath.join (intermediate_pth_of date) [lit "*.tif"]))
           (fun intermediate_tifs =>
              bind (distribute
                      (fun '(d, name, src, crs) =>
                         reproject_viirs d name src crs)
                      (map (fun tif => (date, stem tif, tif, lit "EPSG:4326"))
                         intermediate_tifs))
                (fun _ =>
                   create_viirs_mosaic glob_dirs (intermediate_pth_of date))))
      (init_store date s).
Proof. reflexivity. Qed.

(** C8.  A granule found by the Discover stage whose metadata has no token
    with [UpperLeftPointMtrs], or which has no [CGF_NDSI_Snow_Cover]
    dataset, makes its conversion raise; [distribute] then raises for the
    batch, and [process_viirs] ends with that exception and with the store
    as the Convert stage left it: nobody catches it, and neither the
    Reproject stage nor the Mosaic stage runs. *)
Theorem bad_granule_aborts_the_convert_batch date s scene g :
  In scene (viirs_granules_of glob_dirs date s) ->
  s !! scene = Some (H5File g) ->
  lacks_marker g \/ lacks_snow g ->
  (forall s', s' !! scene = Some (H5File g) ->
     exists e, build_viirs_tif date scene s' = (Raise e, s'))
  /\ exists e s',
       distribute convert_unit
         (map (fun g => (date, g)) (viirs_granules_of glob_dirs date s))
         (init_store date s) = (Raise e, s')
       /\ process_viirs glob_dirs date s = (Raise e, s').
Proof.
  intros Hin Hs Hbad.
  assert (Hunit : forall s', s' !! scene = Some (H5File g) ->
            exists e, build_viirs_tif date scene s' = (Raise e, s')).
  { intros s' Hs'. apply build_viirs_tif_early. right. exists g.
    split; [done|]. by destruct Hbad; [right|left]. }
  split; [done|].
  set (batch := map (fun g => (date, g)) (viirs_granules_of glob_dirs date s)).
  assert (Hs0 : init_store date s !! scene = Some (H5File g)).
  { unfold init_store, try_pass. cbn [snd].
    set (ip := intermediate_pth_of date).
    destruct (makedirs_grows ip (snd (makedirs ip s)) scene)
      as [->|(N1 & _)];
      destruct (makedirs_grows ip s scene) as [E|(N2 & _)]; congruence. }
  assert (Hstep : forall a' s1, s1 !! scene = Some (H5File g) ->
            snd (convert_unit a' s1) !! scene = Some (H5File g)).
  { intros a' s1 Hs1. rewrite convert_unit_keeps; [done|].
    destruct (endswith scene (lit ".tif")) eqn:E; [|done].
    by destruct (h5_is_no_tif scene (granule_is_h5 _ _ _ Hin) E). }
  assert (Hraise : forall s1, s1 !! scene = Some (H5File g) ->
            exists e, fst (convert_unit (date, scene) s1) = Raise e).
  { intros s1 Hs1. destruct (Hunit s1 Hs1) as [e He]. exists e.
    cbn [convert_unit]. by rewrite He. }
  destruct (distribute_raise convert_unit
              (fun s' => s' !! scene = Some (H5File g)) (date, scene)
              Hstep Hraise batch (init_store date s))
    as [e He]; [by apply in_map|done|].
  destruct (distribute convert_unit batch (init_store date s))
    as [r s'] eqn:Hd. cbn [fst] in He. subst r.
  exists e, s'. split; [done|].
  rewrite process_viirs_unfold. fold batch. unfold bind at 1.
  by rewrite Hd.
Qed.

End Stage.

(** ** The pipeline on concrete stores *)

Section Runs.
Local Existing Instance Demo.lib.

Local Ltac by_computation := vm_compute; reflexivity.
Local Ltac absent := by apply (bool_decide_unpack _).

Lemma run_result {A S} (x : A * S) a : fst x = a -> x = (a, snd x).
Proof. destruct x. simpl. by intros ->. Qed.

(** The corner of the demonstration granule, read from the sixth token. *)
Lemma upper_left_of_first_marker_token_witness :
  metadata_upper_left Demo.blob
  = Ok ((-8895604157333, 6%nat)%Z, (6671703118000, 6%nat)%Z).
Proof.
  rewrite (upper_left_of_first_marker_token (L := Demo.lib) Demo.blob
             [lit "GROUP=GridStructure"; lit "GROUP=GRID_1";
              lit "GridName='NPP_Grid_IMG_2D'"; lit "XDim=3"; lit "YDim=2"]
             (lit "UpperLeftPointMtrs=(-8895604.157333,6671703.118000)")
             [lit "LowerRightMtrs=(-7783653.637667,5559752.598333)";
              lit "Projection=HE5_GCTP_SNSOID"; lit "END"]
             [] (lit "-8895604.157333") (lit "6671703.118000")).
  - by_computation.
  - by_computation.
  - repeat constructor.
  - reflexivity.
  - repeat split; absent.
  - repeat split; absent.
Defined.

(** C1 as stated fails: the second token holds
    [UpperLeftPointMtrs=(3,4)], yet the pair comes from the first token,
    which holds the marker too. *)
Lemma upper_left_ignores_a_later_marker_token :
  tokens_of Demo.two_corners
  = Ok [lit "UpperLeftPointMtrs=(1,2)"; lit "UpperLeftPointMtrs=(3,4)"]
  /\ contains (lit "UpperLeftPointMtrs=(3,4)") (lit "UpperLeftPointMtrs=(3,4)")
     = true
  /\ metadata_upper_left Demo.two_corners = Ok ((1, O)%Z, (2, O)%Z)
  /\ metadata_upper_left Demo.two_corners
     <> (do ulcLon <- float_of_str (lit "3");
         do ulcLat <- float_of_str (lit "4");
         Ok (ulcLon, ulcLat))%R.
Proof. repeat split; try by_computation. vm_compute. discriminate. Qed.

Lemma nodata_is_first_fill_item_or_255_witness :
  exists r,
    Demo.store2 !! dest_of Demo.date Demo.scene = Some (TifFile r)
    /\ r_nodata r = Some (250%Z, O).
Proof.
  destruct (nodata_is_first_fill_item_or_255 (L := Demo.lib) Demo.date
              Demo.scene Demo.store1 Demo.store2)
    as (g & snow & r & Hg & Hsnow & Hr & Harray & _).
  { apply run_result. by_computation. }
  vm_compute in Hg. injection Hg as <-.
  vm_compute in Hsnow. injection Hsnow as <-.
  exists r. split; [exact Hr|]. by apply (Harray 250%Z []).
Defined.

(** C2 as stated fails: the granule has a [_FillValue] attribute that can
    be read, the scalar 250, yet the no-data value of its raster is 255:
    the [[0]] of line 69 raises on a scalar and line 71 takes over. *)
Lemma scalar_fill_value_is_not_used :
  snow_dataset Demo.scalar_granule = Ok Demo.scalar_snow
  /\ assoc (lit "_FillValue") (ds_attrs Demo.scalar_snow)
     = Some (AScalar 250)
  /\ fst (build_viirs_tif Demo.date Demo.scene Demo.scalar_store) = Ok tt
  /\ exists r,
       snd (build_viirs_tif Demo.date Demo.scene Demo.scalar_store)
       !! dest_of Demo.date Demo.scene = Some (TifFile r)
       /\ r_nodata r = Some (float_of_int 255)
       /\ r_nodata r <> Some (float_of_int 250).
Proof.
  split; [by_computation|]. split; [by_computation|].
  split; [by_computation|]. eexists. split; [by_computation|].
  split; [reflexivity|]. vm_compute. discriminate.
Qed.

(** The fill value 250 of the demonstration granule is the no-data value of
    its raster; without the attribute it is 255. *)
Example nodata_of_the_demonstration_granule :
  r_nodata Demo.native_raster = Some (250%Z, O)
  /\ (exists r,
        snd (build_viirs_tif Demo.date Demo.scene
               (<[Demo.scene := H5File Demo.bare_granule]> Demo.store1))
        !! Demo.tif = Some (TifFile r)
        /\ r_nodata r = Some (255%Z, O)).
Proof.
  split; [reflexivity|]. eexists. split; [by_computation|reflexivity].
Qed.

Lemma geotransform_is_corner_and_375_witness :
  exists g toks ulcLon ulcLat r,
    Demo.store1 !! Demo.scene = Some (H5File g) /\
    fileMetadata_of g = Ok toks /\
    upper_left toks = Ok (ulcLon, ulcLat) /\
    Demo.store2 !! dest_of Demo.date Demo.scene = Some (TifFile r) /\
    r_transform r
    = Some (GeoInfo (ulcLon, 375%Z, 0%Z, ulcLat, 0%Z, (-375)%Z)).
Proof.
  apply (geotransform_is_corner_and_375 (L := Demo.lib) Demo.date Demo.scene
           Demo.store1).
  apply run_result. by_computation.
Defined.

(** The geotransform of the demonstration raster. *)
Example geotransform_of_the_demonstration_granule :
  r_transform Demo.native_raster
  = Some (GeoInfo ((-8895604157333, 6%nat)%Z, 375%Z, 0%Z,
                   (6671703118000, 6%nat)%Z, 0%Z, (-375)%Z)).
Proof. reflexivity. Qed.

Lemma failed_conversion_writes_nothing_witness :
  exists e,
    build_viirs_tif Demo.date Demo.scene Demo.bad_store
    = (Raise e, Demo.bad_store)
    /\ snd (build_viirs_tif Demo.date Demo.scene Demo.bad_store)
       !! dest_of Demo.date Demo.scene
       = Demo.bad_store !! dest_of Demo.date Demo.scene.
Proof.
  apply (failed_conversion_writes_nothing (L := Demo.lib) Demo.date
           Demo.scene Demo.bad_store).
  right. exists Demo.bad_granule. split; [by_computation|].
  right. intros toks H. vm_compute in H. injection H as <-. reflexivity.
Defined.

Lemma reproject_viirs_writes_out_tif_witness :
  reproject_viirs Demo.date (stem Demo.tif) Demo.tif (lit "EPSG:4326")
    Demo.store2
  = (Ok tt,
     <[OsPath.join (lit "data/intermediate_tif/viirs")
         [Demo.date; stem Demo.tif ++ lit "_out.tif"]
       := TifFile Demo.out_raster]> Demo.store2)
  /\ snd (reproject_viirs Demo.date (stem Demo.tif) Demo.tif
            (lit "EPSG:4326") Demo.store2) !! Demo.tif
     = Some (TifFile Demo.native_raster).
Proof.
  destruct (reproject_viirs_writes_out_tif (L := Demo.lib) Demo.date
              (stem Demo.tif) Demo.tif (lit "EPSG:4326") Demo.store2
              Demo.native_raster
              (-8895604157333, 6%nat)%Z (6670953118000, 6%nat)%Z
              (-8894479157333, 6%nat)%Z (6671703118000, 6%nat)%Z
              (Demo.dec_lit "0.006659501656959246",
               (-8895604157333, 6%nat)%Z, (6671703118000, 6%nat)%Z)
              3%nat 2%nat (r_bands Demo.out_raster))
    as (Hrun & _ & Hsrc); try by_computation.
  split; [exact Hrun|].
  apply Hsrc. vm_compute. discriminate.
Defined.

Lemma empty_directory_gives_no_mosaic_witness :
  let date := OsPath.basename Demo.day_dir in
  let s1 := snd (makedirs (out_pth_of date) Demo.store2) in
  create_viirs_mosaic Demo.no_dirs Demo.day_dir Demo.store2 = (Ok tt, s1)
  /\ s1 !! int_pth_of date = Demo.store2 !! int_pth_of date
  /\ Demo.store2 !! int_pth_of date = None.
Proof.
  intros date s1.
  destruct (empty_directory_gives_no_mosaic (L := Demo.lib) Demo.no_dirs
              Demo.day_dir Demo.store2) as (Hrun & Hfinal & _);
    [by_computation|].
  split; [exact Hrun|]. split; [exact Hfinal|by_computation].
Defined.



Lemma bad_granule_aborts_the_convert_batch_witness :
  (forall s', s' !! Demo.scene = Some (H5File Demo.bad_granule) ->
     exists e, build_viirs_tif Demo.date Demo.scene s' = (Raise e, s'))
  /\ exists e s',
       distribute convert_unit
         (map (fun g => (Demo.date, g))
            (viirs_granules_of Demo.no_dirs Demo.date Demo.bad_store))
         (init_store Demo.date Demo.bad_store) = (Raise e, s')
       /\ process_viirs Demo.no_dirs Demo.date Demo.bad_store = (Raise e, s').
Proof.
  apply (bad_granule_aborts_the_convert_batch (L := Demo.lib) Demo.no_dirs
           Demo.date Demo.bad_store Demo.scene Demo.bad_granule).
  - vm_compute. left. reflexivity.
  - by_computation.
  - left. intros toks H. vm_compute in H. injection H as <-. reflexivity.
Defined.

End Runs.

(** * Further properties of the pipeline *)

(** ** The metadata tokens and the base name *)

Section Tokens.
Context {L : Lib}.

Lemma ws_split_go_app cur a w b :
  is_space w = true ->
  ws_split_go cur (a ++ w :: b) = ws_split_go cur a ++ ws_split b.
Proof.
  intros Hw. revert cur.
  induction a as [|c a IH]; intros cur; cbn [app ws_split_go].
  - rewrite Hw. by destruct cur.
  - destruct (is_space c); [|apply IH].
    destruct cur; by rewrite IH.
Qed.

Lemma ws_split_leading w b : is_space w = true -> ws_split (w :: b) = ws_split b.
Proof. intros Hw. unfold ws_split. cbn [ws_split_go]. by rewrite Hw. Qed.

(** X1.  The corner read from the metadata does not depend on which
    whitespace byte separates two tokens, nor on how many of them do. *)
Theorem separating_whitespace_is_immaterial a b w w' :
  is_space w = true -> is_space w' = true ->
  metadata_upper_left (a ++ w :: b) = metadata_upper_left (a ++ w' :: b)
  /\ metadata_upper_left (a ++ w :: w' :: b) = metadata_upper_left (a ++ w :: b).
Proof.
  intros Hw Hw'. unfold metadata_upper_left, tokens_of, ws_split.
  rewrite !ws_split_go_app by done. by rewrite (ws_split_leading w' b).
Qed.

Lemma map_res_raise {A B} (f : A -> res B) l x e :
  In x l -> f x = Raise e -> exists e', map_res f l = Raise e'.
Proof.
  induction l as [|y l IH]; [done|]. intros [->|Hin] Hx; cbn [map_res].
  - rewrite Hx. cbn [rbind]. eauto.
  - destruct (f y); cbn [rbind]; [|eauto].
    destruct (IH Hin Hx) as [e' ->]. cbn [rbind]. eauto.
Qed.

(** X2.  Line 58 decodes every token before any is looked at: one token
    that is not UTF-8, wherever it stands, makes the extraction raise. *)
Theorem one_undecodable_token_fails_the_extraction blob t e :
  In t (ws_split blob) -> utf8_decode t = Raise e ->
  (exists e', tokens_of blob = Raise e')
  /\ exists e', metadata_upper_left blob = Raise e'.
Proof.
  intros Hin Ht. destruct (map_res_raise utf8_decode _ _ _ Hin Ht) as [e' He].
  unfold metadata_upper_left, tokens_of. rewrite He. cbn [rbind]. eauto.
Qed.

Lemma replace_rparen_end X :
  rparen ∉ X -> replace (X ++ lit ")") (lit ")") (lit "") = X.
Proof.
  intros HX. unfold replace, split. change (lit ")") with [rparen].
  change (X ++ [rparen]) with (X ++ rparen :: []).
  rewrite split_go_char; [|done|lia].
  destruct (_ - _ - _)%nat; simpl; by rewrite app_nil_r.
Qed.

(** X3.  When the first token with the marker holds one number only,
    [UpperLeftPointMtrs=(X)], the extraction raises: line 75 finds no second
    component (if line 74 did not already reject [X]). *)
Theorem corner_with_one_component_raises before tok after pre X :
  Forall (fun t => contains (lit "UpperLeftPointMtrs") t = false) before ->
  tok = pre ++ lit "UpperLeftPointMtrs=(" ++ X ++ lit ")" ->
  plain X ->
  exists e, upper_left (before ++ tok :: after) = Raise e.
Proof.
  intros Hb -> (HXl & HXr & HXc). unfold upper_left.
  set (rest := X ++ lit ")").
  assert (Htok : pre ++ lit "UpperLeftPointMtrs=(" ++ rest
                 = (pre ++ lit "UpperLeftPointMtrs") ++ [equals; lparen] ++ rest).
  { by rewrite <- app_assoc. }
  rewrite first_filter_app; [|done|].
  2:{ rewrite Htok, <- app_assoc. apply contains_app. }
  cbn [rbind]. unfold split at 1. change (lit "=(") with [equals; lparen].
  cbn [rbind]. rewrite Htok, split_go_last; [| |done].
  2:{ subst rest. apply not_elem_of_app. split; [done|].
      by apply (bool_decide_unpack _). }
  cbn [rbind]. subst rest. rewrite replace_rparen_end by done.
  unfold split. change (lit ",") with [comma].
  rewrite (split_go_free _ comma); [| |done].
  2:{ by apply elem_of_cons; left. }
  cbn [rbind first app].
  destruct (float_of_str X); cbn [rbind second]; eauto.
Qed.

End Tokens.

Section BaseName.
Implicit Types n e d cur : str.

Lemma split_go_two c : forall m e fuel cur,
  (length (m ++ c :: e) <= fuel)%nat ->
  (2 <= length (split_go [c] fuel cur (m ++ c :: e)))%nat.
Proof.
  induction m as [|a m IH]; intros e fuel cur Hlen;
    (destruct fuel as [|fuel]; [simpl in Hlen; lia|]); cbn [app split_go strip_prefix].
  - rewrite N.eqb_refl. pose proof (split_go_nonempty [c] fuel [] e).
    destruct (split_go [c] fuel [] e); [done|simpl; lia].
  - destruct (c =? a).
    + pose proof (split_go_nonempty [c] fuel [] (m ++ c :: e)).
      destruct (split_go [c] fuel [] (m ++ c :: e)); [done|simpl; lia].
    + apply IH. simpl in Hlen. lia.
Qed.

(** The pieces but the last, joined again, are the text before the last
    separator. *)
Lemma join_but_last_split c e :
  c ∉ e -> forall m fuel cur,
  (length (m ++ c :: e) <= fuel)%nat ->
  join [c] (but_last (split_go [c] fuel cur (m ++ c :: e))) = cur ++ m.
Proof.
  intros He. induction m as [|a m IH]; intros fuel cur Hlen;
    (destruct fuel as [|fuel]; [simpl in Hlen; lia|]); cbn [app split_go strip_prefix].
  - rewrite N.eqb_refl, (split_go_free [c] c) by (done || by apply elem_of_cons; left).
    simpl. by rewrite app_nil_r.
  - destruct (c =? a) eqn:E.
    + apply N.eqb_eq in E as <-.
      pose proof (split_go_two c m e fuel [] ltac:(simpl in Hlen; lia)) as H2.
      specialize (IH fuel [] ltac:(simpl in Hlen; lia)).
      destruct (split_go [c] fuel [] (m ++ c :: e)) as [|x [|y z]];
        [simpl in H2; lia|simpl in H2; lia|].
      change (but_last (cur :: x :: y :: z))
        with (cur :: but_last (x :: y :: z)).
      change (but_last (x :: y :: z)) with (x :: but_last (y :: z)) in *.
      change (join [c] (cur :: x :: but_last (y :: z)))
        with (cur ++ [c] ++ join [c] (x :: but_last (y :: z))).
      by rewrite IH.
    + rewrite IH by (simpl in Hlen; lia). by rewrite <- app_assoc.
Qed.

Lemma stem_of_basename p n e :
  OsPath.basename p = n ++ dot :: e -> dot ∉ e -> stem p = n.
Proof.
  intros Hb He. unfold stem. rewrite Hb. change (lit ".") with [dot].
  cbn [split]. by rewrite join_but_last_split.
Qed.

(** X4.  The base name of lines 41 and 227 is the file name without its
    last extension: the directory goes, dots inside the name stay. *)
Theorem stem_drops_directory_and_last_extension d n e :
  OsPath.slash ∉ n -> OsPath.slash ∉ e -> dot ∉ e ->
  stem (d ++ [OsPath.slash] ++ n ++ [dot] ++ e) = n
  /\ stem (n ++ [dot] ++ e) = n.
Proof.
  intros Hn He Hd.
  assert (Hne : OsPath.slash ∉ n ++ [dot] ++ e).
  { rewrite !not_elem_of_app. repeat split; try done.
    by apply (bool_decide_unpack _). }
  split; apply (stem_of_basename _ n e); try done;
    unfold OsPath.basename, OsPath.split.
  - by rewrite (rbreak_app_slash d _ Hne).
  - by rewrite (rbreak_none _ Hne).
Qed.

(** X5.  A file name without a dot has the empty base name: its raster
    would be written as [.tif] in the directory of the date. *)
Theorem dotless_name_has_empty_stem date scene :
  dot ∉ OsPath.basename scene ->
  stem scene = []
  /\ dest_of date scene = OsPath.join tif_dir [date; lit ".tif"].
Proof.
  intros Hd. assert (Hs : stem scene = []).
  { unfold stem. change (lit ".") with [dot]. cbn [split].
    rewrite (split_go_free [dot] dot); [done| |done].
    by apply elem_of_cons; left. }
  split; [done|]. unfold dest_of. by rewrite Hs.
Qed.

End BaseName.

(** ** More on the conversion *)

Section ConversionMore.
Context {L : Lib}.

Local Abbreviation rast := (raster float affine).
Local Abbreviation store := (gmap str (node float affine)).
Implicit Types s : store.

(** A conversion that returns: what it read, what it could create, what it
    wrote. *)
Lemma build_viirs_tif_inv_full date scene s s' :
  build_viirs_tif date scene s = (Ok tt, s') ->
  exists g snow fillValue ulcLon ulcLat nRow nCol,
    s !! scene = Some (H5File g) /\
    granule_reads g = Ok (snow, fillValue, ulcLon, ulcLat, nRow, nCol) /\
    shape snow = [nRow; nCol] /\
    creatable s (dest_of date scene) nCol nRow 1 = true /\
    s' = <[dest_of date scene :=
             TifFile (built_tif snow fillValue ulcLon ulcLat nRow nCol)]> s.
Proof.
  rewrite build_viirs_tif_unfold.
  destruct (s !! scene) as [[|g|r|]|] eqn:Hs; try done.
  destruct (granule_reads g) as [[[[[[snow fv] lon] lat] nRow] nCol]|] eqn:Hg;
    [|done].
  cbn zeta. destruct (creatable _ _ _ _ _) eqn:Hc; [|done].
  apply granule_reads_inv in Hg as Hg'.
  destruct Hg' as (_ & _ & _ & _ & _ & _ & _ & H0 & H1).
  destruct (shape snow) as [|a [|b [|? ?]]] eqn:Hsh; try done.
  intros [= <-]. exists g, snow, fv, lon, lat, nRow, nCol.
  repeat split; try done.
  injection H0 as <-. by injection H1 as <-.
Qed.

(** X6.  Whether it returns or raises, a conversion changes the store at no
    path but its destination [data/intermediate_tif/viirs/<date>/<name>.tif]. *)
Theorem conversion_writes_only_its_destination date scene s p :
  p <> OsPath.join (lit "data/intermediate_tif/viirs")
         [date; stem scene ++ lit ".tif"] ->
  snd (build_viirs_tif date scene s) !! p = s !! p.
Proof. apply build_viirs_tif_frame. Qed.

Lemma map_to_byte_id l :
  Forall (fun z => (0 <= z <= 255)%Z) l -> map to_byte l = l.
Proof.
  induction 1 as [|z l Hz _ IH]; [done|]. cbn [map]. rewrite IH.
  unfold to_byte. f_equal. lia.
Qed.

(** X7.  The raster of a conversion that returns has one band: the
    snow-cover array as [np.array(list(snow))] gives it, its items
    converted to the Byte type of the band (clipped to 0..255), hence the
    array itself when its items are bytes; the width is the number of its
    columns and the height the number of its rows; the projection is the
    fixed sinusoidal one and the driver GTiff. *)
Theorem built_raster_is_the_snow_array date scene s s' :
  build_viirs_tif date scene s = (Ok tt, s') ->
  exists g snow arr r,
    s !! scene = Some (H5File g) /\ snow_dataset g = Ok snow /\
    np_array_list snow = Ok arr /\
    s' !! dest_of date scene = Some (TifFile r) /\
    r_bands r = [{| shape := shape arr; data := map to_byte (data arr) |}] /\
    (Forall (fun z => (0 <= z <= 255)%Z) (data arr) -> r_bands r = [arr]) /\
    shape arr = [r_height r; r_width r] /\
    r_crs r = Some prj /\ r_driver r = lit "GTiff".
Proof.
  intros (g & arr & fv & lon & lat & nRow & nCol & Hs & Hg & Hsh & _ & ->)
    %build_viirs_tif_inv_full.
  apply granule_reads_inv in Hg as (toks & snow & _ & Hsnow & _ & Ha & _).
  exists g, snow, arr, (built_tif arr fv lon lat nRow nCol).
  rewrite lookup_insert_eq. cbn [built_tif r_bands r_height r_width r_crs
    r_driver]. unfold as_byte_band.
  repeat split; try done.
  intros Hbytes. rewrite (map_to_byte_id _ Hbytes). by destruct arr.
Qed.

Lemma creatable_after_write s p (r : rast) w h c :
  creatable s p w h c = true ->
  creatable (<[p := TifFile r]> s) p w h c = true.
Proof.
  unfold creatable. rewrite !andb_true_iff.
  intros (((((Hpar & Hbase) & Hnd) & Hw) & Hh) & Hc).
  apply negb_true_iff in Hnd.
  repeat split; try done.
  - unfold parent_ok in *.
    destruct (fst (OsPath.split p)) as [|c0 head] eqn:Hh'; [done|].
    unfold is_dir in *. destruct (decide (c0 :: head = p)) as [E|E].
    + rewrite E in *. by rewrite Hnd in Hpar.
    + by rewrite lookup_insert_ne.
  - apply negb_true_iff. unfold is_dir in *. rewrite lookup_insert_eq.
    apply orb_false_elim in Hnd as [-> _]. done.
Qed.

(** X8.  Converting a granule again overwrites its raster with the same
    raster: a second conversion returns and leaves the store as the first
    left it (the granule itself not being at the destination). *)
Theorem conversion_twice_is_conversion_once date scene s s' :
  build_viirs_tif date scene s = (Ok tt, s') ->
  scene <> dest_of date scene ->
  build_viirs_tif date scene s' = (Ok tt, s').
Proof.
  intros (g & arr & fv & lon & lat & nRow & nCol & Hs & Hg & Hsh & Hc & ->)
    %build_viirs_tif_inv_full Hne.
  rewrite build_viirs_tif_unfold, lookup_insert_ne, Hs, Hg by done.
  cbn zeta. rewrite creatable_after_write by done.
  rewrite Hsh. by rewrite insert_insert_eq.
Qed.

(** X9.  The lower right corner is not used, but it is looked up: a
    granule without a [LowerRightMtrs] token makes the conversion raise, and
    nothing is written. *)
Theorem missing_lower_right_fails_the_conversion date scene s g :
  s !! scene = Some (H5File g) -> lacks_lower_right g ->
  exists e, build_viirs_tif date scene s = (Raise e, s).
Proof.
  intros Hs Hg. rewrite build_viirs_tif_unfold, Hs.
  cut (exists e, granule_reads g = Raise e).
  { intros [e ->]. eauto. }
  unfold granule_reads.
  destruct (fileMetadata_of g) as [toks|] eqn:Ht; cbn [rbind]; [|eauto].
  destruct (grids_of g) as [grids|]; cbn [rbind]; [|eauto].
  destruct (snow_of g _) as [snow|]; cbn [rbind]; [|eauto].
  destruct (np_array_list snow); cbn [rbind]; [|eauto].
  destruct (upper_left toks) as [[lon lat]|]; cbn [rbind]; [|eauto].
  unfold lower_right. rewrite (Hg toks Ht). cbn [first rbind]. eauto.
Qed.

(** X10.  A snow-cover dataset of fewer than two dimensions makes the
    conversion raise before the raster is created: nothing is written. *)
Theorem flat_dataset_fails_the_conversion date scene s g snow a :
  s !! scene = Some (H5File g) -> snow_dataset g = Ok snow ->
  ds_value snow = VArray a -> (length (shape a) < 2)%nat ->
  exists e, build_viirs_tif date scene s = (Raise e, s).
Proof.
  intros Hs Hsnow Ha Hrank. rewrite build_viirs_tif_unfold, Hs.
  cut (exists e, granule_reads g = Raise e).
  { intros [e ->]. eauto. }
  unfold granule_reads. unfold snow_dataset in Hsnow.
  destruct (fileMetadata_of g) as [toks|]; cbn [rbind]; [|eauto].
  destruct (grids_of g) as [grids|]; cbn [rbind] in *; [|done].
  rewrite Hsnow. cbn [rbind]. unfold np_array_list. rewrite Ha.
  destruct (shape a) as [|[|d0] [|d1 sh]] eqn:Hsh;
    try (simpl in Hrank; lia); cbn [rbind]; eauto.
  - destruct (upper_left toks) as [[lon lat]|]; cbn [rbind]; [|eauto].
    destruct (lower_right toks); cbn [rbind]; eauto.
  - rewrite Hsh.
    destruct (upper_left toks) as [[lon lat]|]; cbn [rbind]; [|eauto].
    destruct (lower_right toks); cbn [rbind]; eauto.
Qed.

End ConversionMore.

(** ** More on paths and on [glob] *)

Section PathsMore.
Context {L : Lib}.

Local Abbreviation store := (gmap str (node float affine)).
Implicit Types s : store.
Implicit Types p b d n x suf date : str.

Variable glob_dirs : store -> str -> list str.

Lemma rev_head_in (l : str) c r : rev l = c :: r -> c ∈ l.
Proof.
  intros H. apply list_elem_of_In, in_rev. rewrite H. by left.
Qed.

Lemma endswith_slash_word p date :
  date <> [] -> OsPath.slash ∉ date ->
  endswith (p ++ [OsPath.slash] ++ date) [OsPath.slash] = false.
Proof.
  intros Hne Hsl. unfold endswith, startswith.
  rewrite !rev_app_distr. destruct (rev date) as [|c r] eqn:E.
  { apply (f_equal (@rev N)) in E. rewrite rev_involutive in E. done. }
  cbn [app rev strip_prefix]. destruct (OsPath.slash =? c) eqn:Ec; [|done].
  apply N.eqb_eq in Ec. subst c. by apply rev_head_in in E.
Qed.

Lemma join2_word p b :
  p <> [] -> endswith p [OsPath.slash] = false -> OsPath.slash ∉ b ->
  OsPath.join2 p b = p ++ [OsPath.slash] ++ b.
Proof.
  intros Hp He Hb. unfold OsPath.join2. rewrite (startswith_slash b Hb).
  destruct p; [done|]. by rewrite He.
Qed.

Lemma rstrip_slash_snoc p :
  endswith p [OsPath.slash] = false ->
  OsPath.rstrip_slash (p ++ [OsPath.slash]) = p.
Proof.
  unfold endswith, startswith, OsPath.rstrip_slash.
  rewrite rev_app_distr. cbn [rev app OsPath.lstrip_slash].
  rewrite N.eqb_refl. intros H.
  destruct (rev p) as [|c r] eqn:E.
  - apply (f_equal (@rev N)) in E. by rewrite rev_involutive in E.
  - cbn [strip_prefix OsPath.lstrip_slash] in *.
    rewrite N.eqb_sym. destruct (OsPath.slash =? c); [done|].
    by rewrite <- E, rev_involutive.
Qed.

Lemma all_slash_word p :
  p <> [] -> endswith p [OsPath.slash] = false ->
  OsPath.all_slash (p ++ [OsPath.slash]) = false.
Proof.
  intros Hp. unfold endswith, startswith, OsPath.all_slash.
  destruct (rev p) as [|c r] eqn:E.
  { apply (f_equal (@rev N)) in E. by rewrite rev_involutive in E. }
  cbn [rev app strip_prefix]. intros H.
  apply (f_equal (@rev N)) in E. rewrite rev_involutive in E. subst p.
  cbn [rev]. rewrite !forallb_app. cbn [forallb].
  destruct (OsPath.slash =? c); [done|].
  by rewrite !andb_false_r.
Qed.

(** The directory and the name of [d/name]. *)
Lemma split_word d b :
  d <> [] -> endswith d [OsPath.slash] = false -> OsPath.slash ∉ b ->
  OsPath.split (d ++ [OsPath.slash] ++ b) = (d, b).
Proof.
  intros Hd He Hb. unfold OsPath.split.
  rewrite (rbreak_app_slash d b Hb), all_slash_word, rstrip_slash_snoc; done.
Qed.

Lemma intermediate_pth_text date :
  date <> [] -> OsPath.slash ∉ date ->
  intermediate_pth_of date = tif_dir ++ [OsPath.slash] ++ date
  /\ endswith (intermediate_pth_of date) [OsPath.slash] = false
  /\ intermediate_pth_of date <> [].
Proof.
  intros Hne Hsl.
  assert (E : intermediate_pth_of date = tif_dir ++ [OsPath.slash] ++ date).
  { unfold intermediate_pth_of, OsPath.join. cbn [fold_left].
    change (OsPath.join2 (OsPath.join2 (lit "data") (lit "intermediate_tif"))
              (lit "viirs")) with tif_dir.
    by apply join2_word. }
  rewrite E. split; [done|]. split; [by apply endswith_slash_word|done].
Qed.

Lemma contains_single c x : contains [c] x = false -> c ∉ x.
Proof.
  induction x as [|a x IH]; [intros _; apply not_elem_of_nil|].
  cbn [contains]. unfold startswith. cbn [strip_prefix].
  intros [H1 H2]%orb_false_elim. apply not_elem_of_cons. split; [|by apply IH].
  intros ->. by rewrite N.eqb_refl in H1.
Qed.

(** A listed name is not empty, has no slash, and is an entry of the
    store under its directory. *)
Lemma listdir_spec s d name :
  In name (listdir s d) ->
  name <> [] /\ (OsPath.slash ∉ name)
  /\ exists v, s !! (OsPath.join2 d [] ++ name) = Some v.
Proof.
  unfold listdir. destruct (_ || _); [|done].
  intros H%list_elem_of_In. apply list_elem_of_omap in H as (k & Hk & Hf).
  destruct (strip_prefix _ k) as [nm|] eqn:Hs; [|done].
  destruct (nonempty nm && negb (contains [OsPath.slash] nm)) eqn:Hc; [|done].
  injection Hf as ->. apply andb_true_iff in Hc as [Hn Hc].
  apply negb_true_iff in Hc.
  split; [by destruct name|]. split; [by apply contains_single|].
  apply strip_prefix_Some in Hs as <-.
  apply list_elem_of_fmap in Hk as ([k' v] & -> & Hkv).
  apply elem_of_map_to_list in Hkv. eauto.
Qed.

(** What [glob] finds for [d/*suf], [d] a plain directory path: entries
    [d/n suf] of the store, [n] without slash. *)
Lemma glob_star_in_word_dir s d suf x :
  d <> [] -> endswith d [OsPath.slash] = false -> has_magic d = false ->
  Forall (fun c => c <> star /\ c <> qmark) suf -> OsPath.slash ∉ suf ->
  In x (glob_list glob_dirs s (OsPath.join2 d (star :: suf))) ->
  exists n, (OsPath.slash ∉ n) /\ x = d ++ [OsPath.slash] ++ n ++ suf
            /\ is_Some (s !! x).
Proof.
  intros Hd He Hm Hlit Hsl.
  assert (Hb : OsPath.slash ∉ star :: suf).
  { apply not_elem_of_cons. split; done. }
  rewrite (join2_word d _ Hd He Hb). unfold glob_list.
  rewrite (split_word d _ Hd He Hb).
  assert (Hmagic : has_magic (star :: suf) = true) by done.
  rewrite !has_magic_app, Hmagic, !orb_true_r. cbn [negb].
  destruct d as [|c0 d0] eqn:Ed; [done|]. rewrite <- Ed in *.
  rewrite Hm, andb_false_r.
  cbn [flat_map]. rewrite app_nil_r.
  intros (name & <- & [Hl Hf]%filter_In)%in_map_iff.
  apply fnmatch_star_suffix, endswith_iff in Hf as [n ->]; [|done].
  assert (Hname : In (n ++ suf) (listdir s d)).
  { destruct (ishidden (star :: suf)); [done|].
    by apply filter_In in Hl as [Hl _]. }
  apply listdir_spec in Hname as (_ & Hns & v & Hv).
  exists n. split; [by apply not_elem_of_app in Hns as [? _]|].
  unfold OsPath.join. cbn [fold_left].
  rewrite (join2_word d _ Hd He Hns). split; [done|].
  rewrite (join2_word d [] Hd He) in Hv by apply not_elem_of_nil.
  rewrite app_nil_r, <- app_assoc in Hv. eauto.
Qed.

(** X11.  In the Reproject stage of a plain date every unit reads
    [<dir>/<n>.tif] and writes [<dir>/<n>_out.tif], [<dir>] the directory
    of the date: the output is beside its source and is never the source
    itself. *)
Theorem reprojection_output_is_beside_its_source date s tif :
  plain_date date ->
  In tif (glob_list glob_dirs s
            (OsPath.join (intermediate_pth_of date) [lit "*.tif"])) ->
  exists n,
    tif = intermediate_pth_of date ++ lit "/" ++ n ++ lit ".tif"
    /\ stem tif = n
    /\ out_of date (stem tif)
       = intermediate_pth_of date ++ lit "/" ++ n ++ lit "_out.tif"
    /\ out_of date (stem tif) <> tif.
Proof.
  intros (Hne & Hsl & Hmagic) Hin.
  destruct (intermediate_pth_text date Hne Hsl) as (Eip & Hend & Hnn).
  unfold OsPath.join in Hin. cbn [fold_left] in Hin.
  apply (glob_star_in_word_dir s _ (lit ".tif")) in Hin
    as (n & Hn & -> & _); try done.
  2:{ rewrite Eip, !has_magic_app, Hmagic. done. }
  2:{ repeat constructor; done. }
  2:{ by apply (bool_decide_unpack _). }
  assert (Hstem : stem (intermediate_pth_of date ++ [OsPath.slash] ++ n ++ lit ".tif") = n).
  { apply (stem_of_basename _ n (lit "tif")).
    - unfold OsPath.basename, OsPath.split.
      rewrite rbreak_app_slash; [done|].
      apply not_elem_of_app. split; [done|]. by apply (bool_decide_unpack _).
    - by apply (bool_decide_unpack _). }
  exists n. rewrite Hstem. split; [done|]. split; [done|].
  assert (Hout : out_of date n
                 = intermediate_pth_of date ++ lit "/" ++ n ++ lit "_out.tif").
  { unfold out_of, OsPath.join. cbn [fold_left].
    rewrite (join2_word tif_dir date) by done. rewrite <- Eip.
    apply join2_word; try done.
    apply not_elem_of_app. split; [done|]. by apply (bool_decide_unpack _). }
  split; [done|]. rewrite Hout.
  intros E%app_inv_head%app_inv_head%app_inv_head. discriminate E.
Qed.

End PathsMore.

(** ** More on the reprojection and on the mosaic *)

Section Failures.
Context {L : Lib}.

Local Abbreviation rast := (raster float affine).
Local Abbreviation store := (gmap str (node float affine)).
Implicit Types s : store.

Variable glob_dirs : store -> str -> list str.

Lemma reproject_bands_only_at dst (src : rast) t dst_crs w h bs :
  forall i, only_at dst (reproject_bands dst src t dst_crs w h i bs).
Proof.
  induction bs as [|b bs IH]; intros i; cbn [reproject_bands].
  - apply only_at_ret.
  - apply only_at_bind; [apply only_at_lift|]. intros out.
    apply only_at_bind; [apply only_at_update|]. intros _. apply IH.
Qed.

Lemma reproject_viirs_only_at date name src dst_crs :
  only_at (out_of date name) (reproject_viirs date name src dst_crs).
Proof.
  unfold reproject_viirs. apply only_at_bind.
  { intros s q _. by rewrite rio_open_store. }
  intros r. destruct (bounds_of _ _ _) as [[[l b] rt] tp].
  apply only_at_bind; [apply only_at_lift|]. intros [[t w] h].
  apply only_at_bind; [apply only_at_create|]. intros _.
  apply reproject_bands_only_at.
Qed.

(** X12.  Whether it returns or raises, a reprojection changes the store at
    no path but [data/intermediate_tif/viirs/<date>/<name>_out.tif]. *)
Theorem reprojection_writes_only_its_output date name src dst_crs s p :
  p <> OsPath.join (lit "data/intermediate_tif/viirs")
         [date; name ++ lit "_out.tif"] ->
  snd (reproject_viirs date name src dst_crs s) !! p = s !! p.
Proof. apply reproject_viirs_only_at. Qed.

(** X13.  When the source is no raster that can be opened, or the output
    grid cannot be computed, the reprojection raises and nothing is
    written. *)
Theorem reprojection_reads_before_it_writes date name src dst_crs s :
  ((forall r, s !! src <> Some (TifFile r)) ->
   reproject_viirs date name src dst_crs s = (Raise LibraryError, s))
  /\ (forall (r : rast) left_ bottom right_ top e,
        s !! src = Some (TifFile r) ->
        bounds_of (r_transform r) (r_width r) (r_height r)
        = (left_, bottom, right_, top) ->
        calculate_default_transform (r_crs r) dst_crs (r_width r)
          (r_height r) left_ bottom right_ top RES = Raise e ->
        reproject_viirs date name src dst_crs s = (Raise e, s)).
Proof.
  split.
  - intros Hno. unfold reproject_viirs, bind at 1, rio_open.
    destruct (s !! src) as [[|g|r|]|] eqn:E; try done. by destruct (Hno r).
  - intros r l b rt tp e Hsrc Hb Hc.
    unfold reproject_viirs, bind at 1, rio_open. rewrite Hsrc, Hb.
    unfold bind at 1, lift. by rewrite Hc.
Qed.

(** X14.  The output file is created before the first band is resampled:
    when the resampling of the first band raises, the reprojection raises
    and leaves the new file behind, with the metadata of lines 122-129 and
    as many bands as the source. *)
Theorem failed_resampling_leaves_the_output_behind
    date name src dst_crs s (r : rast) left_ bottom right_ top t w h b bs e :
  s !! src = Some (TifFile r) ->
  bounds_of (r_transform r) (r_width r) (r_height r)
  = (left_, bottom, right_, top) ->
  calculate_default_transform (r_crs r) dst_crs (r_width r) (r_height r)
    left_ bottom right_ top RES = Ok (t, w, h) ->
  creatable s (out_of date name) w h (length (r_bands r)) = true ->
  r_bands r = b :: bs ->
  reproject b (r_transform r) (r_crs r) t dst_crs nearest w h = Raise e ->
  exists r' : rast,
    reproject_viirs date name src dst_crs s
    = (Raise e, <[out_of date name := TifFile r']> s)
    /\ r_driver r' = lit "GTiff" /\ r_width r' = w /\ r_height r' = h
    /\ length (r_bands r') = length (r_bands r)
    /\ r_nodata r' = r_nodata r /\ r_crs r' = Some dst_crs
    /\ r_transform r' = Some (Affine t).
Proof.
  intros Hsrc Hb Hc Hcr Hbands He.
  unfold reproject_viirs, bind at 1, rio_open. rewrite Hsrc, Hb.
  unfold bind at 1, lift. rewrite Hc.
  unfold bind at 1, create. cbn [r_width r_height r_bands].
  rewrite repeat_length, Hcr. rewrite !Hbands.
  cbn [reproject_bands]. unfold bind at 1, lift. rewrite He.
  eexists. split; [reflexivity|]. cbn [r_driver r_width r_height r_bands
    r_nodata r_crs r_transform]. by rewrite repeat_length.
Qed.

Lemma open_all_raise paths s p :
  In p paths -> (forall r, s !! p <> Some (TifFile r)) ->
  open_all paths s = (Raise LibraryError, s).
Proof.
  intros Hin Hp. induction paths as [|f paths IH]; [done|].
  cbn [open_all]. unfold bind at 1, rio_open.
  destruct (s !! f) as [[|g|r|]|] eqn:E; try done.
  destruct Hin as [->|Hin]; [by destruct (Hp r)|].
  unfold bind. by rewrite (IH Hin).
Qed.

(** X15.  When one of the enumerated [*_out.tif] is no raster that can be
    opened, or when the merge raises, [create_viirs_mosaic] raises with the
    store as it was after the archive directory was made: [final.tif] is
    not written. *)
Theorem unreadable_input_or_failed_merge_writes_no_mosaic pth s :
  let date := OsPath.basename pth in
  let s1 := snd (makedirs (out_pth_of date) s) in
  let paths := glob_list glob_dirs s1 (OsPath.join pth [lit "*_out.tif"]) in
  (forall p, In p paths -> (forall r, s1 !! p <> Some (TifFile r)) ->
     create_viirs_mosaic glob_dirs pth s = (Raise LibraryError, s1))
  /\ (forall srcs (src : rast) e,
        Forall2 (fun f (r : rast) => s1 !! f = Some (TifFile r)) paths srcs ->
        last srcs = Some src ->
        merge srcs BOUNDS RES = Raise e ->
        create_viirs_mosaic glob_dirs pth s = (Raise e, s1)).
Proof.
  intros date s1 paths. split.
  - intros p Hin Hp. rewrite create_viirs_mosaic_unfold. cbn zeta.
    fold date s1 paths. unfold bind at 1.
    by rewrite (open_all_raise paths s1 p).
  - intros srcs src e Hopen Hlast Hm. rewrite create_viirs_mosaic_unfold.
    cbn zeta. fold date s1 paths. unfold bind at 1.
    rewrite (open_all_ok _ _ _ Hopen), Hlast.
    unfold bind at 1. unfold bind at 1, lift at 1. by rewrite Hm.
Qed.

End Failures.

(** ** Where the mosaic goes, and what the Reproject stage finds *)

Section Places.
Context {L : Lib}.

Local Abbreviation store := (gmap str (node float affine)).
Implicit Types s : store.
Implicit Types n y rest date : str.

Variable glob_dirs : store -> str -> list str.

(** X16.  For a date that is one directory name, the date that
    [create_viirs_mosaic] reads off the path of the intermediate directory
    is that date, and the mosaic is written into that same directory, as
    [final.tif]. *)
Theorem mosaic_lands_in_the_directory_of_the_date date :
  date <> [] -> OsPath.slash ∉ date ->
  OsPath.basename (intermediate_pth_of date) = date
  /\ int_pth_of (OsPath.basename (intermediate_pth_of date))
     = intermediate_pth_of date ++ lit "/final.tif".
Proof.
  intros Hne Hsl.
  destruct (intermediate_pth_text date Hne Hsl) as (Eip & Hend & Hnn).
  assert (Hb : OsPath.basename (intermediate_pth_of date) = date).
  { rewrite Eip. unfold OsPath.basename.
    by rewrite (split_word tif_dir date). }
  split; [done|]. rewrite Hb.
  unfold int_pth_of, OsPath.join. cbn [fold_left].
  change (OsPath.join2 (OsPath.join2 (lit "data") (lit "intermediate_tif"))
            (lit "viirs")) with tif_dir.
  rewrite (join2_word tif_dir date) by done. rewrite <- Eip.
  apply join2_word; try done. by apply (bool_decide_unpack _).
Qed.

(** X17.  The archive directory that [create_viirs_mosaic] makes is named
    by the text of the date before its first dot, the year of a date
    [YYYY.MM.DD]. *)
Theorem archive_directory_is_named_by_the_year y rest :
  y <> [] -> dot ∉ y -> OsPath.slash ∉ y ->
  year_of (y ++ [dot] ++ rest) = y
  /\ out_pth_of (y ++ [dot] ++ rest)
     = lit "/home/jovyan/geoanalytics_user_shared_data/modis-terra/mosaics/viirs/"
       ++ y.
Proof.
  intros Hne Hd Hsl.
  assert (Hy : year_of (y ++ [dot] ++ rest) = y).
  { unfold year_of. change (lit ".") with [dot]. cbn [split app].
    destruct (y ++ dot :: rest) eqn:E; [by destruct y|]. rewrite <- E.
    by rewrite split_go_char. }
  split; [done|]. unfold out_pth_of. rewrite Hy.
  unfold OsPath.join. cbn [fold_left].
  change (OsPath.join2
            (OsPath.join2 (OsPath.join2 shared_root (lit "modis-terra"))
               (lit "mosaics")) (lit "viirs"))
    with (lit "/home/jovyan/geoanalytics_user_shared_data/modis-terra/mosaics/viirs").
  by rewrite join2_word.
Qed.

Lemma contains_single_false c x : c ∉ x -> contains [c] x = false.
Proof.
  induction x as [|a x IH]; [done|].
  intros [Hc Hx]%not_elem_of_cons. cbn [contains]. unfold startswith.
  cbn [strip_prefix]. rewrite (IH Hx).
  destruct (c =? a) eqn:E; [|done]. apply N.eqb_eq in E. congruence.
Qed.

Lemma listdir_intro s d name v :
  is_dir s d = true -> name <> [] -> OsPath.slash ∉ name ->
  s !! (OsPath.join2 d [] ++ name) = Some v ->
  In name (listdir s d).
Proof.
  intros Hd Hne Hsl Hv. unfold listdir. rewrite Hd, orb_true_r.
  apply list_elem_of_In, list_elem_of_omap.
  exists (OsPath.join2 d [] ++ name). split.
  - apply list_elem_of_fmap. exists (OsPath.join2 d [] ++ name, v).
    split; [done|]. by apply elem_of_map_to_list.
  - rewrite strip_prefix_app, (contains_single_false _ _ Hsl).
    by destruct name.
Qed.

Lemma fnmatch_literal_refl suf :
  Forall (fun c => c <> star /\ c <> qmark) suf -> fnmatch suf suf = true.
Proof.
  induction 1 as [|c suf [Hs Hq] _ IH]; [done|]. cbn [fnmatch].
  apply N.eqb_neq in Hs. by rewrite Hs, N.eqb_refl, orb_true_r, IH.
Qed.

Lemma fnmatch_star_unfold pat name :
  fnmatch (star :: pat) name
  = fnmatch pat name
    || match name with
       | [] => false
       | _ :: name' => fnmatch (star :: pat) name'
       end.
Proof. cbn [fnmatch]. rewrite N.eqb_refl. by destruct name. Qed.

Lemma fnmatch_star_intro suf k :
  Forall (fun c => c <> star /\ c <> qmark) suf ->
  fnmatch (star :: suf) (k ++ suf) = true.
Proof.
  intros Hlit. induction k as [|a k IH]; rewrite fnmatch_star_unfold.
  - cbn [app]. by rewrite (fnmatch_literal_refl suf Hlit).
  - cbn [app]. rewrite IH. apply orb_true_r.
Qed.

(** X18.  The enumeration of line 223 returns every [.tif] of the
    directory of the date whose name does not start with a dot: a
    [final.tif] and the [_out.tif] files that are there are among the
    rasters that the Reproject stage reprojects. *)
Theorem every_tif_of_the_directory_is_reprojected date s n v :
  plain_date date ->
  s !! intermediate_pth_of date = Some Dir ->
  OsPath.slash ∉ n -> ishidden (n ++ lit ".tif") = false ->
  s !! (intermediate_pth_of date ++ lit "/" ++ n ++ lit ".tif") = Some v ->
  In (intermediate_pth_of date ++ lit "/" ++ n ++ lit ".tif")
    (glob_list glob_dirs s
       (OsPath.join (intermediate_pth_of date) [lit "*.tif"])).
Proof.
  intros (Hne & Hsl & Hmagic) Hdir Hn Hhid Hv.
  destruct (intermediate_pth_text date Hne Hsl) as (Eip & Hend & Hnn).
  set (ip := intermediate_pth_of date) in *.
  assert (Hns : OsPath.slash ∉ n ++ lit ".tif").
  { apply not_elem_of_app. split; [done|]. by apply (bool_decide_unpack _). }
  assert (Hb : OsPath.slash ∉ star :: lit ".tif")
    by by apply (bool_decide_unpack _).
  assert (Hipm : has_magic ip = false).
  { rewrite Eip, !has_magic_app, Hmagic. done. }
  unfold OsPath.join. cbn [fold_left].
  change (lit "*.tif") with (star :: lit ".tif").
  rewrite (join2_word ip _ Hnn Hend Hb). unfold glob_list.
  rewrite (split_word ip _ Hnn Hend Hb).
  rewrite !has_magic_app. change (has_magic (star :: lit ".tif")) with true.
  rewrite !orb_true_r. cbn [negb].
  destruct ip as [|c0 ip0] eqn:Ed; [done|]. rewrite <- Ed in *.
  rewrite Hipm, andb_false_r. cbn [flat_map]. rewrite app_nil_r.
  apply in_map_iff. exists (n ++ lit ".tif"). split.
  { unfold OsPath.join. cbn [fold_left]. by rewrite join2_word. }
  unfold glob1. apply filter_In. split.
  - change (ishidden (star :: lit ".tif")) with false.
    apply filter_In. split; [|by rewrite Hhid].
    apply (listdir_intro s ip _ v).
    + unfold is_dir. by rewrite Hdir, orb_true_r.
    + by destruct n.
    + done.
    + rewrite (join2_word ip []) by (done || apply not_elem_of_nil).
      by rewrite app_nil_r, <- app_assoc.
  - apply fnmatch_star_intro. repeat constructor; done.
Qed.

End Places.

(** ** The stages together *)

Section Stages.
Context {L : Lib}.

Local Abbreviation rast := (raster float affine).
Local Abbreviation store := (gmap str (node float affine)).
Implicit Types s : store.

Variable glob_dirs : store -> str -> list str.

Lemma rstrip_slash_id p :
  endswith p [OsPath.slash] = false -> OsPath.rstrip_slash p = p.
Proof.
  unfold endswith, startswith, OsPath.rstrip_slash.
  cbn [rev app]. intros H. destruct (rev p) as [|c r] eqn:E.
  - apply (f_equal (@rev N)) in E. by rewrite rev_involutive in E.
  - cbn [strip_prefix OsPath.lstrip_slash] in *.
    rewrite N.eqb_sym. destruct (OsPath.slash =? c); [done|].
    by rewrite <- E, rev_involutive.
Qed.

Lemma makedirs_existing date s :
  date <> [] -> OsPath.slash ∉ date ->
  is_Some (s !! tif_dir) -> is_Some (s !! intermediate_pth_of date) ->
  makedirs (intermediate_pth_of date) s = (Raise FileExistsError, s).
Proof.
  intros Hne Hsl [v Hv] [v' Hv'].
  destruct (intermediate_pth_text date Hne Hsl) as (Eip & Hend & Hnn).
  assert (Hsp : OsPath.split (intermediate_pth_of date) = (tif_dir, date)).
  { rewrite Eip. by apply split_word. }
  unfold makedirs. cbn [makedirs_go]. rewrite Hsp.
  destruct date as [|c0 d0] eqn:Ed; [done|]. rewrite <- Ed in *.
  replace (exists_ s tif_dir) with true
    by (unfold exists_; by rewrite Hv, orb_true_r).
  rewrite andb_false_r. unfold mkdir.
  replace (if OsPath.all_slash (intermediate_pth_of date)
           then intermediate_pth_of date
           else OsPath.rstrip_slash (intermediate_pth_of date))
    with (intermediate_pth_of date)
    by (rewrite rstrip_slash_id by done; by destruct (OsPath.all_slash _)).
  unfold exists_. by rewrite Hv', orb_true_r.
Qed.

(** X20.  On a rerun the Init stage is silent: when the directory of the
    date is there already, both [os.makedirs] raise, both exceptions are
    passed over, and the store is as it was. *)
Theorem init_on_an_existing_directory_changes_nothing date s :
  date <> [] -> OsPath.slash ∉ date ->
  is_Some (s !! tif_dir) -> is_Some (s !! intermediate_pth_of date) ->
  makedirs (intermediate_pth_of date) s = (Raise FileExistsError, s)
  /\ init_store date s = s.
Proof.
  intros Hne Hsl Hp Hd.
  pose proof (makedirs_existing date s Hne Hsl Hp Hd) as Hm.
  split; [done|]. unfold init_store, try_pass. cbn [snd].
  rewrite Hm. cbn [snd]. by rewrite Hm.
Qed.

Lemma grows_only_dirs name s s' q :
  grows name s s' -> s' !! q = s !! q \/ (s !! q = None /\ s' !! q = Some Dir).
Proof. intros H. destruct (H q) as [E|(N1 & D & _)]; [by left|by right]. Qed.

Lemma only_dirs_trans s1 s2 s3 :
  (forall q, s2 !! q = s1 !! q \/ (s1 !! q = None /\ s2 !! q = Some Dir)) ->
  (forall q, s3 !! q = s2 !! q \/ (s2 !! q = None /\ s3 !! q = Some Dir)) ->
  forall q, s3 !! q = s1 !! q \/ (s1 !! q = None /\ s3 !! q = Some Dir).
Proof.
  intros H12 H23 q. destruct (H12 q) as [E|[N D]], (H23 q) as [E'|[N' D']].
  - left. congruence.
  - right. split; congruence.
  - right. split; congruence.
  - congruence.
Qed.

Lemma init_store_only_dirs date s q :
  init_store date s !! q = s !! q
  \/ (s !! q = None /\ init_store date s !! q = Some Dir).
Proof.
  unfold init_store, try_pass. cbn [snd]. revert q.
  eapply only_dirs_trans; intros q; eapply grows_only_dirs, makedirs_grows.
Qed.

(** X21.  A date without granules, with no raster in its directory: the
    three enumerations are empty, [process_viirs] returns without an
    exception, and the only change of the store is that directories may
    have been made. *)
Theorem empty_date_produces_nothing date s :
  let pth := intermediate_pth_of date in
  let s0 := init_store date s in
  let s1 := snd (makedirs (out_pth_of (OsPath.basename pth)) s0) in
  viirs_granules_of glob_dirs date s = [] ->
  glob_list glob_dirs s0 (OsPath.join pth [lit "*.tif"]) = [] ->
  glob_list glob_dirs s1 (OsPath.join pth [lit "*_out.tif"]) = [] ->
  process_viirs glob_dirs date s = (Ok tt, s1)
  /\ forall q, s1 !! q = s !! q \/ (s !! q = None /\ s1 !! q = Some Dir).
Proof.
  intros pth s0 s1 Hg Ht Ho. split.
  - rewrite process_viirs_unfold, Hg. fold s0.
    unfold bind at 1. cbn [map distribute length get_tasks run_chunks].
    unfold bind at 1, glob. fold pth. rewrite Ht.
    unfold bind at 1. cbn [map distribute length get_tasks run_chunks].
    rewrite create_viirs_mosaic_unfold. cbn zeta. fold pth s1.
    by rewrite Ho.
  - eapply only_dirs_trans; [apply init_store_only_dirs|].
    intros q. eapply grows_only_dirs, makedirs_grows.
Qed.

End Stages.

(** ** What the pipeline leaves alone, and what [clean] removes *)

Section Untouched.
Context {L : Lib}.

Local Abbreviation rast := (raster float affine).
Local Abbreviation store := (gmap str (node float affine)).
Implicit Types s : store.

Variable glob_dirs : store -> str -> list str.

Lemma bind_inv {A B : Type} (Inv : store -> Prop) (m : M A) (k : A -> M B) :
  (forall s, Inv s -> Inv (snd (m s))) ->
  (forall a s, Inv s -> Inv (snd (k a s))) ->
  forall s, Inv s -> Inv (snd (bind m k s)).
Proof.
  intros Hm Hk s Hs. unfold bind. specialize (Hm s Hs).
  destruct (m s) as [[a|e] s1]; cbn [snd] in *; [by apply Hk|done].
Qed.

Lemma run_chunks_inv {A : Type} (func : A -> M unit) (Inv : store -> Prop) :
  (forall a s, Inv s -> Inv (snd (func a s))) ->
  forall cs s, Inv s -> Inv (snd (run_chunks func cs s)).
Proof.
  intros Hstep. induction cs as [|c cs IH]; intros s Hs; [done|].
  cbn [run_chunks].
  pose proof (run_chunk_inv func Inv Hstep c s Hs) as H1.
  destruct (run_chunk func c s) as [r s1]. cbn [snd] in H1.
  specialize (IH s1 H1). destruct (run_chunks func cs s1) as [r' s2].
  done.
Qed.

Lemma out_of_is_tif date name : endswith (out_of date name) (lit ".tif") = true.
Proof.
  unfold out_of, OsPath.join. cbn [fold_left].
  eapply endswith_trans; [apply join2_endswith|].
  apply endswith_iff. exists (name ++ lit "_out"). by rewrite <- app_assoc.
Qed.

Lemma int_pth_of_is_tif date : endswith (int_pth_of date) (lit ".tif") = true.
Proof.
  unfold int_pth_of, OsPath.join. cbn [fold_left].
  eapply endswith_trans; [apply join2_endswith|].
  apply endswith_iff. by exists (lit "final").
Qed.

(** X22.  Whatever the date and whatever the outcome, [process_viirs]
    leaves every entry of the store as it is whose path does not end in
    [.tif]: the granules it reads are neither changed nor removed. *)
Theorem pipeline_leaves_what_is_no_tif date s q v :
  s !! q = Some v -> endswith q (lit ".tif") = false ->
  snd (process_viirs glob_dirs date s) !! q = Some v.
Proof.
  intros Hq Hend. rewrite process_viirs_unfold.
  set (Inv := fun s' : store => s' !! q = Some v).
  assert (H0 : Inv (init_store date s)).
  { unfold Inv. destruct (init_store_only_dirs date s q) as [->|[N _]];
      congruence. }
  revert H0. generalize (init_store date s).
  change (forall s0, Inv s0 -> Inv (snd (bind
    (distribute convert_unit
       (map (fun g => (date, g)) (viirs_granules_of glob_dirs date s)))
    (fun _ =>
       bind (glob glob_dirs
               (OsPath.join (intermediate_pth_of date) [lit "*.tif"]))
         (fun intermediate_tifs =>
            bind (distribute
                    (fun '(d, name, src, crs) =>
                       reproject_viirs d name src crs)
                    (map (fun tif => (date, stem tif, tif, lit "EPSG:4326"))
                       intermediate_tifs))
              (fun _ =>
                 create_viirs_mosaic glob_dirs (intermediate_pth_of date))))
    s0))).
  apply bind_inv.
  { apply run_chunks_inv. intros a s1 H1. unfold Inv.
    by rewrite convert_unit_keeps. }
  intros _. apply bind_inv; [done|]. intros tifs. apply bind_inv.
  { apply run_chunks_inv. intros [[[d name] src] crs] s1 H1. unfold Inv.
    rewrite reproject_viirs_only_at; [done|].
    intros ->. by rewrite out_of_is_tif in Hend. }
  intros _ s1 H1. unfold Inv. rewrite mosaic_tail_only_at.
  - destruct (makedirs_grows
                (out_pth_of (OsPath.basename (intermediate_pth_of date))) s1 q)
      as [->|(N & _)]; [done|]. unfold Inv in H1. congruence.
  - intros ->. by rewrite int_pth_of_is_tif in Hend.
Qed.

Lemma run_chunk_remove_ok l : forall s s',
  run_chunk remove l s = (Ok tt, s') ->
  (forall f, In f l -> s' !! f = None)
  /\ (forall q, ~ In q l -> s' !! q = s !! q).
Proof.
  induction l as [|f l IH]; intros s s'.
  { intros [= <-]. done. }
  cbn [run_chunk]. unfold bind, remove at 1.
  destruct (s !! f) as [[|g|r|]|] eqn:Hf; try done;
    intros [Hin Hout]%IH; (split;
      [ intros f' [<-|Hf']; [|by apply Hin];
        destruct (decide (f ∈ l)) as [Hd|Hd];
          [ by apply Hin, list_elem_of_In
          | rewrite Hout by (by rewrite <- list_elem_of_In);
            apply lookup_delete_eq ]
      | intros q Hq; rewrite Hout by (intros ?; apply Hq; by right);
        apply lookup_delete_ne; intros ->; apply Hq; by left ]).
Qed.

Lemma remove_cases f s :
  remove f s = (Ok tt, delete f s) \/ exists e, remove f s = (Raise e, s).
Proof. unfold remove. destruct (s !! f) as [[| | |]|]; eauto. Qed.

Lemma run_chunk_remove_any l : forall s q,
  snd (run_chunk remove l s) !! q = s !! q
  \/ (In q l /\ snd (run_chunk remove l s) !! q = None).
Proof.
  induction l as [|f l IH]; intros s q; [by left|].
  cbn [run_chunk]. unfold bind.
  destruct (remove_cases f s) as [->|[e ->]]; [|by left].
  destruct (IH (delete f s) q) as [E|[Hin E]].
  - destruct (decide (q = f)) as [->|Hne].
    + right. split; [by left|]. rewrite E. apply lookup_delete_eq.
    + left. rewrite E. by apply lookup_delete_ne.
  - right. split; [by right|done].
Qed.

(** X23.  When [clean] returns, every file that its [glob] enumerated is
    gone, and every other entry of the store is as it was. *)
Theorem clean_removes_what_it_enumerates date s s' :
  clean glob_dirs date s = (Ok tt, s') ->
  (forall f, In f (glob_list glob_dirs s (modis_pattern date)) ->
     s' !! f = None)
  /\ (forall q, ~ In q (glob_list glob_dirs s (modis_pattern date)) ->
        s' !! q = s !! q).
Proof.
  unfold clean, bind, glob. fold (modis_pattern date).
  destruct (glob_list glob_dirs s (modis_pattern date)) as [|f l] eqn:E.
  - intros [= <-]. done.
  - apply run_chunk_remove_ok.
Qed.

(** X24.  [clean] looks under [modis]: for a date that is one directory
    name, whether it returns or raises, the only entries that it removes
    are files [data/intermediate_tif/modis/<date>/<n>.tif], and it changes
    nothing else; what the pipeline wrote under [viirs] stays. *)
Theorem clean_removes_only_modis_rasters date s q :
  plain_date date ->
  snd (clean glob_dirs date s) !! q = s !! q
  \/ (snd (clean glob_dirs date s) !! q = None
      /\ exists n, q = lit "data/intermediate_tif/modis/" ++ date
                       ++ lit "/" ++ n ++ lit ".tif").
Proof.
  intros (Hne & Hsl & Hmagic). unfold clean, bind, glob.
  set (l := glob_list _ _ _).
  assert (Hl : forall x, In x l ->
            exists n, x = lit "data/intermediate_tif/modis/" ++ date
                          ++ lit "/" ++ n ++ lit ".tif").
  { intros x Hx. subst l. unfold OsPath.join in Hx. cbn [fold_left] in Hx.
    change (OsPath.join2 (OsPath.join2 (lit "data") (lit "intermediate_tif"))
              (lit "modis")) with (lit "data/intermediate_tif/modis") in Hx.
    rewrite (join2_word (lit "data/intermediate_tif/modis") date) in Hx
      by done.
    apply (glob_star_in_word_dir glob_dirs s _ (lit ".tif")) in Hx
      as (n & _ & -> & _).
    - exists n. rewrite <- !app_assoc. reflexivity.
    - intros [E _]%app_eq_nil. vm_compute in E. discriminate E.
    - by apply endswith_slash_word.
    - rewrite !has_magic_app, Hmagic. reflexivity.
    - clear. repeat constructor; done.
    - clear. by apply (bool_decide_unpack _). }
  clearbody l. destruct l as [|f l']; [left; reflexivity|].
  destruct (run_chunk_remove_any (f :: l') s q) as [E|[Hin E]];
    [left; exact E|].
  right. split; [exact E|]. apply Hl, Hin.
Qed.

End Untouched.

(** ** The further properties on concrete stores *)

Section MoreRuns.
Local Existing Instance Demo.lib.

Local Ltac by_computation := vm_compute; reflexivity.
Local Ltac absent := by apply (bool_decide_unpack _).
Local Ltac differs := vm_compute; discriminate.
Local Ltac plain_day := split; [differs|split; [absent|reflexivity]].

Lemma separating_whitespace_is_immaterial_witness :
  metadata_upper_left (lit "UpperLeftPointMtrs=(1,2)" ++ 32%N :: lit "END")
  = metadata_upper_left (lit "UpperLeftPointMtrs=(1,2)" ++ 10%N :: lit "END")
  /\ metadata_upper_left
       (lit "UpperLeftPointMtrs=(1,2)" ++ 32%N :: 10%N :: lit "END")
     = metadata_upper_left
         (lit "UpperLeftPointMtrs=(1,2)" ++ 32%N :: lit "END").
Proof.
  apply (separating_whitespace_is_immaterial (L := Demo.lib)
           (lit "UpperLeftPointMtrs=(1,2)") (lit "END") 32%N 10%N);
    reflexivity.
Defined.

Lemma one_undecodable_token_fails_the_extraction_witness :
  (exists e', tokens_of (lit "XDim=3 " ++ [255%N]) = Raise e')
  /\ exists e', metadata_upper_left (lit "XDim=3 " ++ [255%N]) = Raise e'.
Proof.
  apply (one_undecodable_token_fails_the_extraction (L := Demo.lib)
           (lit "XDim=3 " ++ [255%N]) [255%N] UnicodeDecodeError).
  - vm_compute. right. left. reflexivity.
  - by_computation.
Defined.

Lemma corner_with_one_component_raises_witness :
  exists e,
    upper_left ([lit "XDim=3"] ++ lit "UpperLeftPointMtrs=(5)" :: [lit "END"])
    = Raise e.
Proof.
  apply (corner_with_one_component_raises (L := Demo.lib) [lit "XDim=3"]
           (lit "UpperLeftPointMtrs=(5)") [lit "END"] [] (lit "5")).
  - repeat constructor.
  - reflexivity.
  - repeat split; absent.
Defined.

Lemma stem_drops_directory_and_last_extension_witness :
  stem (Demo.granule_dir ++ [OsPath.slash] ++ lit "VNP10A1F.A2021001.h10v03"
          ++ [dot] ++ lit "h5")
  = lit "VNP10A1F.A2021001.h10v03"
  /\ stem (lit "VNP10A1F.A2021001.h10v03" ++ [dot] ++ lit "h5")
     = lit "VNP10A1F.A2021001.h10v03".
Proof.
  apply (stem_drops_directory_and_last_extension Demo.granule_dir
           (lit "VNP10A1F.A2021001.h10v03") (lit "h5")); absent.
Defined.

Lemma dotless_name_has_empty_stem_witness :
  stem (lit "/tmp/granule") = []
  /\ dest_of Demo.date (lit "/tmp/granule")
     = OsPath.join tif_dir [Demo.date; lit ".tif"].
Proof.
  apply (dotless_name_has_empty_stem Demo.date (lit "/tmp/granule")). absent.
Defined.

Lemma conversion_writes_only_its_destination_witness :
  snd (build_viirs_tif Demo.date Demo.scene Demo.store1) !! Demo.scene
  = Demo.store1 !! Demo.scene.
Proof.
  apply (conversion_writes_only_its_destination (L := Demo.lib) Demo.date
           Demo.scene Demo.store1 Demo.scene).
  differs.
Defined.

Lemma built_raster_is_the_snow_array_witness :
  exists r,
    Demo.store2 !! dest_of Demo.date Demo.scene = Some (TifFile r)
    /\ r_bands r
       = [{| shape := [2; 3]%nat; data := [10; 20; 250; 40; 250; 0]%Z |}].
Proof.
  destruct (built_raster_is_the_snow_array (L := Demo.lib) Demo.date
              Demo.scene Demo.store1 Demo.store2)
    as (g & snow & arr & r & Hg & Hsnow & Harr & Hr & _ & Hbytes & _).
  { apply run_result. by_computation. }
  vm_compute in Hg. injection Hg as <-.
  vm_compute in Hsnow. injection Hsnow as <-.
  vm_compute in Harr. injection Harr as <-.
  exists r. split; [exact Hr|]. apply Hbytes.
  repeat constructor; lia.
Defined.

Lemma conversion_twice_is_conversion_once_witness :
  build_viirs_tif Demo.date Demo.scene Demo.store2 = (Ok tt, Demo.store2).
Proof.
  apply (conversion_twice_is_conversion_once (L := Demo.lib) Demo.date
           Demo.scene Demo.store1).
  - apply run_result. by_computation.
  - differs.
Defined.

Lemma missing_lower_right_fails_the_conversion_witness :
  exists e,
    build_viirs_tif Demo.date Demo.scene
      (<[Demo.scene := H5File Demo.cornerless_granule]> Demo.store1)
    = (Raise e, <[Demo.scene := H5File Demo.cornerless_granule]> Demo.store1).
Proof.
  apply (missing_lower_right_fails_the_conversion (L := Demo.lib) Demo.date
           Demo.scene _ Demo.cornerless_granule).
  - by_computation.
  - intros toks H. vm_compute in H. injection H as <-. reflexivity.
Defined.

Lemma flat_dataset_fails_the_conversion_witness :
  exists e,
    build_viirs_tif Demo.date Demo.scene
      (<[Demo.scene := H5File Demo.flat_granule]> Demo.store1)
    = (Raise e, <[Demo.scene := H5File Demo.flat_granule]> Demo.store1).
Proof.
  apply (flat_dataset_fails_the_conversion (L := Demo.lib) Demo.date
           Demo.scene _ Demo.flat_granule Demo.flat_snow Demo.flat_array).
  - by_computation.
  - by_computation.
  - reflexivity.
  - vm_compute. lia.
Defined.

Lemma reprojection_output_is_beside_its_source_witness :
  exists n,
    Demo.tif = intermediate_pth_of Demo.date ++ lit "/" ++ n ++ lit ".tif"
    /\ stem Demo.tif = n
    /\ out_of Demo.date (stem Demo.tif)
       = intermediate_pth_of Demo.date ++ lit "/" ++ n ++ lit "_out.tif"
    /\ out_of Demo.date (stem Demo.tif) <> Demo.tif.
Proof.
  apply (reprojection_output_is_beside_its_source (L := Demo.lib)
           Demo.no_dirs Demo.date Demo.store2 Demo.tif).
  - plain_day.
  - vm_compute. left. reflexivity.
Defined.

Lemma reprojection_writes_only_its_output_witness :
  snd (reproject_viirs Demo.date (stem Demo.tif) Demo.tif (lit "EPSG:4326")
         Demo.store2) !! Demo.tif
  = Demo.store2 !! Demo.tif.
Proof.
  apply (reprojection_writes_only_its_output (L := Demo.lib) Demo.date
           (stem Demo.tif) Demo.tif (lit "EPSG:4326") Demo.store2 Demo.tif).
  differs.
Defined.

Lemma reprojection_reads_before_it_writes_witness :
  reproject_viirs Demo.date (stem Demo.tif) Demo.tif (lit "EPSG:4326")
    Demo.store1
  = (Raise LibraryError, Demo.store1)
  /\ reproject_viirs Demo.date (stem Demo.tif) Demo.tif (lit "EPSG:4326")
       Demo.empty_raster_store
     = (Raise LibraryError, Demo.empty_raster_store).
Proof.
  split.
  - apply (proj1 (reprojection_reads_before_it_writes (L := Demo.lib)
                    Demo.date (stem Demo.tif) Demo.tif (lit "EPSG:4326")
                    Demo.store1)).
    intros r. differs.
  - apply (proj2 (reprojection_reads_before_it_writes (L := Demo.lib)
                    Demo.date (stem Demo.tif) Demo.tif (lit "EPSG:4326")
                    Demo.empty_raster_store)
             Demo.empty_raster (0%Z, O) (0%Z, O) (0%Z, O) (0%Z, O)
             LibraryError); by_computation.
Defined.

Lemma failed_resampling_leaves_the_output_behind_witness :
  exists r' : raster Demo.dec Demo.aff,
    reproject_viirs (L := Demo.failing_lib) Demo.date (stem Demo.tif)
      Demo.tif (lit "EPSG:4326") Demo.store2
    = (Raise LibraryError,
       <[out_of Demo.date (stem Demo.tif) := TifFile r']> Demo.store2)
    /\ r_driver r' = lit "GTiff" /\ r_width r' = 3%nat /\ r_height r' = 2%nat
    /\ length (r_bands r') = length (r_bands Demo.native_raster)
    /\ r_nodata r' = r_nodata Demo.native_raster
    /\ r_crs r' = Some (lit "EPSG:4326")
    /\ r_transform r'
       = Some (Affine (Demo.dec_lit "0.006659501656959246",
                       (-8895604157333, 6%nat)%Z,
                       (6671703118000, 6%nat)%Z)).
Proof.
  apply (failed_resampling_leaves_the_output_behind (L := Demo.failing_lib)
           Demo.date (stem Demo.tif) Demo.tif (lit "EPSG:4326") Demo.store2
           Demo.native_raster
           (-8895604157333, 6%nat)%Z (6670953118000, 6%nat)%Z
           (-8894479157333, 6%nat)%Z (6671703118000, 6%nat)%Z
           (Demo.dec_lit "0.006659501656959246",
            (-8895604157333, 6%nat)%Z, (6671703118000, 6%nat)%Z)
           3%nat 2%nat
           {| shape := [2; 3]%nat; data := [10; 20; 250; 40; 250; 0]%Z |}
           [] LibraryError); by_computation.
Defined.

Lemma unreadable_input_or_failed_merge_writes_no_mosaic_witness :
  create_viirs_mosaic Demo.no_dirs Demo.day_dir Demo.stray_store
  = (Raise LibraryError,
     snd (makedirs (out_pth_of (OsPath.basename Demo.day_dir))
            Demo.stray_store))
  /\ create_viirs_mosaic (L := Demo.failing_lib) Demo.no_dirs Demo.day_dir
       Demo.store3
     = (Raise LibraryError,
        snd (makedirs (L := Demo.failing_lib)
               (out_pth_of (OsPath.basename Demo.day_dir)) Demo.store3)).
Proof.
  split.
  - pose proof (unreadable_input_or_failed_merge_writes_no_mosaic
                  (L := Demo.lib) Demo.no_dirs Demo.day_dir Demo.stray_store)
      as H.
    cbv zeta in H. destruct H as [H _]. apply (H Demo.stray_out).
    + vm_compute. left. reflexivity.
    + intros r. differs.
  - pose proof (unreadable_input_or_failed_merge_writes_no_mosaic
                  (L := Demo.failing_lib) Demo.no_dirs Demo.day_dir
                  Demo.store3) as H.
    cbv zeta in H. destruct H as [_ H].
    apply (H [Demo.out_raster] Demo.out_raster LibraryError).
    + match goal with
      | |- Forall2 _ ?l _ =>
        replace l with [Demo.out_tif] by (symmetry; by_computation)
      end.
      constructor; [by_computation|constructor].
    + reflexivity.
    + reflexivity.
Defined.

Lemma mosaic_lands_in_the_directory_of_the_date_witness :
  OsPath.basename (intermediate_pth_of Demo.date) = Demo.date
  /\ int_pth_of (OsPath.basename (intermediate_pth_of Demo.date))
     = intermediate_pth_of Demo.date ++ lit "/final.tif".
Proof.
  apply (mosaic_lands_in_the_directory_of_the_date Demo.date);
    [differs|absent].
Defined.

Lemma archive_directory_is_named_by_the_year_witness :
  year_of (lit "2021" ++ [dot] ++ lit "01.01") = lit "2021"
  /\ out_pth_of (lit "2021" ++ [dot] ++ lit "01.01")
     = lit "/home/jovyan/geoanalytics_user_shared_data/modis-terra/mosaics/viirs/"
       ++ lit "2021".
Proof.
  apply (archive_directory_is_named_by_the_year (lit "2021") (lit "01.01"));
    [differs|absent|absent].
Defined.

Lemma every_tif_of_the_directory_is_reprojected_witness :
  In (intermediate_pth_of Demo.date ++ lit "/"
        ++ lit "VNP10A1F.A2021001.h10v03_out" ++ lit ".tif")
    (glob_list Demo.no_dirs Demo.store3
       (OsPath.join (intermediate_pth_of Demo.date) [lit "*.tif"])).
Proof.
  apply (every_tif_of_the_directory_is_reprojected (L := Demo.lib)
           Demo.no_dirs Demo.date Demo.store3
           (lit "VNP10A1F.A2021001.h10v03_out") (TifFile Demo.out_raster)).
  - plain_day.
  - by_computation.
  - absent.
  - reflexivity.
  - by_computation.
Defined.

Lemma init_on_an_existing_directory_changes_nothing_witness :
  makedirs (intermediate_pth_of Demo.date) Demo.store_with_parent
  = (Raise FileExistsError, Demo.store_with_parent)
  /\ init_store Demo.date Demo.store_with_parent = Demo.store_with_parent.
Proof.
  apply (init_on_an_existing_directory_changes_nothing (L := Demo.lib)
           Demo.date Demo.store_with_parent).
  - differs.
  - absent.
  - vm_compute. eexists. reflexivity.
  - vm_compute. eexists. reflexivity.
Defined.

Lemma empty_date_produces_nothing_witness :
  let s1 :=
    snd (makedirs
           (out_pth_of (OsPath.basename (intermediate_pth_of Demo.date)))
           (init_store Demo.date Demo.empty_store)) in
  process_viirs Demo.no_dirs Demo.date Demo.empty_store = (Ok tt, s1)
  /\ forall q, s1 !! q = Demo.empty_store !! q
               \/ (Demo.empty_store !! q = None /\ s1 !! q = Some Dir).
Proof.
  intros s1.
  apply (empty_date_produces_nothing (L := Demo.lib) Demo.no_dirs Demo.date
           Demo.empty_store); by_computation.
Defined.

Lemma pipeline_leaves_what_is_no_tif_witness :
  snd (process_viirs Demo.no_dirs Demo.date Demo.store0) !! Demo.scene
  = Some (H5File Demo.granule).
Proof.
  apply (pipeline_leaves_what_is_no_tif (L := Demo.lib) Demo.no_dirs
           Demo.date Demo.store0 Demo.scene (H5File Demo.granule));
    by_computation.
Defined.

Lemma clean_removes_what_it_enumerates_witness :
  glob_list Demo.no_dirs Demo.modis_store (modis_pattern Demo.date)
  = [Demo.modis_tif]
  /\ snd (clean Demo.no_dirs Demo.date Demo.modis_store) !! Demo.modis_tif
     = None
  /\ snd (clean Demo.no_dirs Demo.date Demo.modis_store) !! Demo.out_tif
     = Demo.modis_store !! Demo.out_tif.
Proof.
  destruct (clean_removes_what_it_enumerates (L := Demo.lib) Demo.no_dirs
              Demo.date Demo.modis_store
              (snd (clean (L := Demo.lib) Demo.no_dirs Demo.date
                      Demo.modis_store)))
    as [Hgone Hrest].
  { apply run_result. by_computation. }
  split; [by_computation|]. split.
  - apply Hgone. vm_compute. left. reflexivity.
  - apply Hrest. vm_compute. intros [E|[]]. discriminate E.
Defined.

Lemma clean_removes_only_modis_rasters_witness :
  snd (clean Demo.no_dirs Demo.date Demo.modis_store) !! Demo.out_tif
  = Demo.modis_store !! Demo.out_tif
  \/ (snd (clean Demo.no_dirs Demo.date Demo.modis_store) !! Demo.out_tif
      = None
      /\ exists n,
           Demo.out_tif
           = lit "data/intermediate_tif/modis/" ++ Demo.date ++ lit "/" ++ n
             ++ lit ".tif").
Proof.
  apply (clean_removes_only_modis_rasters (L := Demo.lib) Demo.no_dirs
           Demo.date Demo.modis_store Demo.out_tif).
  plain_day.
Defined.

End MoreRuns.
